(** * TaskPilot observer: the state machine of [frontend/src/App.jsx]

    The React component [App] keeps the observer's view of a run in a handful
    of [useState] cells and updates them from one WebSocket message handler
    ([ws.onmessage]) and two command handlers ([handleSubmit],
    [handleCredentialsSubmit]).  This file embeds those handlers as pure
    functions on an explicit state record and proves the properties the
    specification states about them.

    Conventions of the embedding:
    - a parsed JSON message is a [value].  A Number is a binary64: [VNum n]
      is the Number a whole-number literal [n] parses to (the binary64
      nearest to [n]), [VDouble x] any other Number;
    - an object is the list of its properties in insertion order, the way
      JavaScript enumerates them; spreading and overriding keep that order;
    - a string is kept as the bytes of its UTF-8 encoding, a lone surrogate
      as the three bytes the same scheme gives it, so that every sequence of
      UTF-16 code units has exactly one image and equal strings have equal
      bytes.  The program only ever joins strings across an ASCII literal,
      where joining the bytes is joining the strings;
    - an operation that throws a [TypeError] returns [None];
    - the progress percentage is computed in IEEE 754 binary64 with the
      kernel's primitive floats. *)

From Stdlib Require Import ZArith String Ascii List Lia.
From Stdlib Require Import PrimFloat FloatOps SpecFloat Uint63 DecimalString.
From Stdlib Require DecimalZ.
From stdpp Require Import base list strings.

Set Warnings "-register-all,-inexact-float".

Open Scope string_scope.
Open Scope Z_scope.

(** ** JavaScript values *)

Module JS.

Inductive value :=
| VUndefined
| VNull
| VBool (b : bool)
| VNum (n : Z)
| VStr (s : string)
| VArr (l : list value)
| VObj (o : list (string * value))
| VDouble (x : float).

Definition object := list (string * value).

(** [o[k]] on an object: the first property named [k], else [undefined]. *)
Fixpoint prop (k : string) (o : object) : value :=
  match o with
  | [] => VUndefined
  | (k', v) :: r => if String.eqb k' k then v else prop k r
  end.

(** The object has an own property named [k]. *)
Definition has_prop (k : string) (o : list (string * value)) : bool :=
  existsb (fun p => String.eqb (fst p) k) o.

(** [{ ...o, k: v }]: an existing property keeps its place and takes the new
    value, a new property goes last. *)
Fixpoint set_prop (k : string) (v : value) (o : object) : object :=
  match o with
  | [] => [(k, v)]
  | (k', v') :: r =>
      if String.eqb k' k then (k, v) :: r else (k', v') :: set_prop k v r
  end.

(** [v.k] where [v] is known not to be [null] or [undefined]: primitives and
    arrays have none of the property names the handlers read. *)
Definition get (v : value) (k : string) : value :=
  match v with
  | VObj o => prop k o
  | _ => VUndefined
  end.

(** [v === 'literal'] *)
Definition is_str (v : value) (s : string) : bool :=
  match v with
  | VStr s' => String.eqb s' s
  | _ => false
  end.

(** The whole number a binary64 is, when it is one. *)
Definition whole (x : float) : option Z :=
  match Prim2SF x with
  | S754_zero _ => Some 0
  | S754_finite s m e =>
      let sm := if s then Z.neg m else Z.pos m in
      if (0 <=? e)%Z then Some (sm * 2 ^ e)
      else if (Z.pos m mod 2 ^ (- e) =? 0)%Z then Some (sm / 2 ^ (- e))
      else None
  | _ => None
  end.

(** [idx === v] for an array position [idx] *)
Definition is_index (idx : nat) (v : value) : bool :=
  match v with
  | VNum n => Z.eqb n (Z.of_nat idx)
  | VDouble x =>
      match whole x with
      | Some n => Z.eqb n (Z.of_nat idx)
      | None => false
      end
  | _ => false
  end.

(** ToBoolean *)
Definition truthy (v : value) : bool :=
  match v with
  | VUndefined | VNull => false
  | VBool b => b
  | VNum n => negb (Z.eqb n 0)
  | VStr s => negb (String.eqb s "")
  | VArr _ | VObj _ => true
  | VDouble x => negb (PrimFloat.eqb x 0) && negb (PrimFloat.is_nan x)
  end.

(** [v == null] *)
Definition nullish (v : value) : bool :=
  match v with
  | VUndefined | VNull => true
  | _ => false
  end.

(** [a ?? b] *)
Definition coalesce (a b : value) : value := if nullish a then b else a.

(** [a || b] *)
Definition or_else (a b : value) : value := if truthy a then a else b.

(** *** Number::toString

    The decimal text of a binary64 [m * 2^e]: the shortest digit string
    [s] and power of ten [q] with [s * 10^q] rounding back to the number,
    the closest to it when several are as short, laid out with or without
    an exponent as ECMAScript prescribes. *)

Definition decimal (n : Z) : string := NilZero.string_of_int (Z.to_int n).

Fixpoint zeros (n : nat) : string :=
  match n with
  | O => ""
  | S k => String "0" (zeros k)
  end.

Definition pow10 (q : Z) : Z := 10 ^ Z.max q 0.
Definition pow2 (q : Z) : Z := 2 ^ Z.max q 0.

(** [s * 10^q] and [b * 2^E] brought to a common integer scale. *)
Definition scaled_decimal (s q E : Z) : Z := s * pow10 q * pow2 (- E).
Definition scaled_binary (b q E : Z) : Z := b * pow2 E * pow10 (- q).

(** [s * 10^q] rounds to [m * 2^e] (to nearest, ties to even): it lies
    within half a unit in the last place, a quarter below a power of two. *)
Definition round_trips (m : positive) (e : Z) (s q : Z) : bool :=
  let lo := if (Z.pos m =? 2 ^ 52) && (-1074 <? e) then 4 * Z.pos m - 1
            else 4 * Z.pos m - 2 in
  let hi := 4 * Z.pos m + 2 in
  let a := scaled_decimal s q (e - 2) in
  let l := scaled_binary lo q (e - 2) in
  let h := scaled_binary hi q (e - 2) in
  if Z.even (Z.pos m) then (l <=? a) && (a <=? h) else (l <? a) && (a <? h).

Definition distance (m : positive) (e : Z) (s q : Z) : Z :=
  Z.abs (scaled_decimal s q e - scaled_binary (Z.pos m) q e).

(** The multiple of [10^q] that prints [m * 2^e], if there is one: of the
    two next to the number, the one that rounds back, the closer when both
    do. *)
Definition candidate (m : positive) (e : Z) (q : Z) : option Z :=
  let s1 := scaled_binary (Z.pos m) q e / scaled_decimal 1 q e in
  let s2 := s1 + 1 in
  let ok1 := (1 <=? s1) && round_trips m e s1 q in
  let ok2 := round_trips m e s2 q in
  match ok1, ok2 with
  | true, true =>
      match distance m e s1 q ?= distance m e s2 q with
      | Lt => Some s1
      | Gt => Some s2
      | Eq => Some (if Z.even s1 then s1 else s2)
      end
  | true, false => Some s1
  | false, true => Some s2
  | false, false => None
  end.

(** Powers of ten tried from above: the first that has a candidate gives
    the fewest digits. *)
Fixpoint shortest (fuel : nat) (m : positive) (e : Z) (q : Z) : Z * Z :=
  match candidate m e q with
  | Some s => (s, q)
  | None =>
      match fuel with
      | O => (Z.pos m * pow2 e * pow10 (- q), q)
      | S f => shortest f m e (q - 1)
      end
  end.

Definition digits_of (m : positive) (e : Z) : Z * Z :=
  let b := Z.log2 (Z.pos m) + e + 1 in
  let q0 := b * 30103 / 100000 + 2 in
  shortest (Z.to_nat (q0 - Z.min e 0)) m e q0.

Definition take_string (n : nat) (s : string) : string := substring 0 n s.

Definition drop_string (n : nat) (s : string) : string :=
  substring n (String.length s - n) s.

Definition format_number (s q : Z) : string :=
  let ds := decimal s in
  let k := Z.of_nat (String.length ds) in
  let n := k + q in
  if (k <=? n) && (n <=? 21) then ds +:+ zeros (Z.to_nat (n - k))
  else if (0 <? n) && (n <=? 21) then
    take_string (Z.to_nat n) ds +:+ "." +:+ drop_string (Z.to_nat n) ds
  else if (-6 <? n) && (n <=? 0) then "0." +:+ zeros (Z.to_nat (- n)) +:+ ds
  else
    let ex := n - 1 in
    let sign := if ex <? 0 then "-" else "+" in
    let mant := if k =? 1 then ds
                else take_string 1 ds +:+ "." +:+ drop_string 1 ds in
    mant +:+ "e" +:+ sign +:+ decimal (Z.abs ex).

Definition Number_toString (x : spec_float) : string :=
  match x with
  | S754_zero _ => "0"
  | S754_infinity false => "Infinity"
  | S754_infinity true => "-Infinity"
  | S754_nan => "NaN"
  | S754_finite sg m e =>
      let '(s, q) := digits_of m e in
      (if sg then "-" else "") +:+ format_number s q
  end.

(** The text of the Number a whole-number literal parses to. *)
Definition number_to_string (n : Z) : string :=
  Number_toString (binary_normalize prec emax n 0 false).

Definition double_to_string (x : float) : string :=
  Number_toString (Prim2SF x).

(** ToString, as a template literal applies it.  An object with an own
    [toString] property has no callable [toString] (a parsed value is never
    a function) and the [valueOf] it inherits returns the object itself, so
    the conversion throws; any other object prints through
    [Object.prototype.toString], an array through [join]. *)
Fixpoint ToString (v : value) : option string :=
  match v with
  | VUndefined => Some "undefined"
  | VNull => Some "null"
  | VBool true => Some "true"
  | VBool false => Some "false"
  | VNum n => Some (number_to_string n)
  | VDouble x => Some (double_to_string x)
  | VStr s => Some s
  | VArr l =>
      (fix join (l : list value) : option string :=
         match l with
         | [] => Some ""
         | x :: r =>
             let sx := match x with
                       | VUndefined | VNull => Some ""
                       | _ => ToString x
                       end in
             match sx, r with
             | None, _ => None
             | Some a, [] => Some a
             | Some a, _ =>
                 match join r with
                 | Some b => Some (a +:+ "," +:+ b)
                 | None => None
                 end
             end
         end) l
  | VObj o =>
      if has_prop "toString" o then None else Some "[object Object]"
  end.

(** The text of an array position (positions are below 2^32). *)
Definition index_key (i : nat) : string := decimal (Z.of_nat i).

(** *** Code units

    The UTF-16 code units of a string, each as the string of that one
    unit: a sequence of one to three bytes is one unit, a sequence of four
    bytes (a code point past U+FFFF) is a pair of surrogates. *)

Definition byte (n : Z) : ascii := ascii_of_nat (Z.to_nat n).

Definition unit_string (u : Z) : string :=
  String (byte (224 + u / 4096))
    (String (byte (128 + (u / 64) mod 64))
       (String (byte (128 + u mod 64)) EmptyString)).

Fixpoint code_units (l : list ascii) : list string :=
  match l with
  | [] => []
  | c1 :: r1 =>
      let n1 := Z.of_nat (nat_of_ascii c1) in
      if n1 <? 192 then String c1 EmptyString :: code_units r1
      else
        match r1 with
        | [] => [String c1 EmptyString]
        | c2 :: r2 =>
            if n1 <? 224 then
              String c1 (String c2 EmptyString) :: code_units r2
            else
              match r2 with
              | [] => [String c1 (String c2 EmptyString)]
              | c3 :: r3 =>
                  if n1 <? 240 then
                    String c1 (String c2 (String c3 EmptyString))
                    :: code_units r3
                  else
                    match r3 with
                    | [] => [String c1 (String c2 (String c3 EmptyString))]
                    | c4 :: r4 =>
                        let n2 := Z.of_nat (nat_of_ascii c2) in
                        let n3 := Z.of_nat (nat_of_ascii c3) in
                        let n4 := Z.of_nat (nat_of_ascii c4) in
                        let cp := (n1 - 240) * 262144 + (n2 - 128) * 4096
                                  + (n3 - 128) * 64 + (n4 - 128) - 65536 in
                        unit_string (55296 + cp / 1024)
                        :: unit_string (56320 + cp mod 1024)
                        :: code_units r4
                    end
              end
        end
  end.

(** The own enumerable properties [{ ...v }] copies. *)
Definition spread (v : value) : object :=
  match v with
  | VObj o => o
  | VArr l => imap (fun i x => (index_key i, x)) l
  | VStr s =>
      imap (fun i c => (index_key i, VStr c))
           (code_units (list_ascii_of_string s))
  | _ => []
  end.

(** *** [String.prototype.trim]

    White space and line terminators: TAB, LF, VT, FF, CR, SP; U+00A0;
    U+1680; U+2000 to U+200A, U+2028, U+2029, U+202F; U+205F; U+3000;
    U+FEFF. *)

Definition is_white_space (c : ascii) : bool :=
  let n := nat_of_ascii c in
  ((9 <=? n)%nat && (n <=? 13)%nat) || (n =? 32)%nat.

Definition is_white_space2 (c1 c2 : ascii) : bool :=
  (nat_of_ascii c1 =? 194)%nat && (nat_of_ascii c2 =? 160)%nat.

Definition is_white_space3 (c1 c2 c3 : ascii) : bool :=
  let n1 := nat_of_ascii c1 in
  let n2 := nat_of_ascii c2 in
  let n3 := nat_of_ascii c3 in
  ((n1 =? 225) && (n2 =? 154) && (n3 =? 128))%nat
  || ((n1 =? 226) && (n2 =? 128)
      && (((128 <=? n3) && (n3 <=? 138)) || (n3 =? 168) || (n3 =? 169)
          || (n3 =? 175)))%nat
  || ((n1 =? 226) && (n2 =? 129) && (n3 =? 159))%nat
  || ((n1 =? 227) && (n2 =? 128) && (n3 =? 128))%nat
  || ((n1 =? 239) && (n2 =? 187) && (n3 =? 191))%nat.

(** The bytes after one white-space character at the head of [l]; in
    [white_space_last] the list is the string read backwards. *)
Definition white_space_head (l : list ascii) : option (list ascii) :=
  match l with
  | c1 :: r1 =>
      if is_white_space c1 then Some r1
      else
        match r1 with
        | c2 :: r2 =>
            if is_white_space2 c1 c2 then Some r2
            else
              match r2 with
              | c3 :: r3 =>
                  if is_white_space3 c1 c2 c3 then Some r3 else None
              | [] => None
              end
        | [] => None
        end
  | [] => None
  end.

Definition white_space_last (l : list ascii) : option (list ascii) :=
  match l with
  | c1 :: r1 =>
      if is_white_space c1 then Some r1
      else
        match r1 with
        | c2 :: r2 =>
            if is_white_space2 c2 c1 then Some r2
            else
              match r2 with
              | c3 :: r3 =>
                  if is_white_space3 c3 c2 c1 then Some r3 else None
              | [] => None
              end
        | [] => None
        end
  | [] => None
  end.

Fixpoint strip (head : list ascii -> option (list ascii)) (fuel : nat)
  (l : list ascii) : list ascii :=
  match fuel with
  | O => l
  | S f =>
      match head l with
      | Some r => strip head f r
      | None => l
      end
  end.

Definition trim_start (l : list ascii) : list ascii :=
  strip white_space_head (length l) l.

Definition trim_end (l : list ascii) : list ascii :=
  rev (strip white_space_last (length l) (rev l)).

(** [s.trim()] *)
Definition trim (s : string) : string :=
  string_of_list_ascii (trim_end (trim_start (list_ascii_of_string s))).

(** A number as a binary64; exact for every array length. *)
Definition num (n : nat) : float :=
  PrimFloat.of_uint63 (Uint63.of_Z (Z.of_nat n)).

(** [Math.round]: the integer closest to [x], ties towards plus infinity,
    computed exactly from the mantissa and exponent of [x]. *)
Definition Math_round (x : float) : Z :=
  match Prim2SF x with
  | S754_finite s m e =>
      let sm := if s then Z.neg m else Z.pos m in
      if 0 <=? e then sm * 2 ^ e
      else (2 * sm + 2 ^ (- e)) / 2 ^ (1 - e)
  | _ => 0
  end.

End JS.

Import JS.

(** ** [buildDescription] *)

Definition dquote : string := String (ascii_of_nat 34) EmptyString.

(** A template literal with one placeholder: the text of [v] put through
    [k], or the [TypeError] of the conversion. *)
Definition interpolate (v : value) (k : string -> string) : option value :=
  match ToString v with
  | Some t => Some (VStr (k t))
  | None => None
  end.

Definition buildDescription (step : value) : option value :=
  if negb (truthy step) then Some (VStr "")
  else if is_str (get step "action") "navigate" then
    interpolate (get step "url") (fun t => "Navigate to " +:+ t)
  else if is_str (get step "action") "click" then
    interpolate (get step "selector") (fun t => "Click " +:+ t)
  else if is_str (get step "action") "type" then
    match ToString (get step "text"), ToString (get step "selector") with
    | Some t, Some sel =>
        Some (VStr ("Type " +:+ dquote +:+ t +:+ dquote +:+ " in " +:+ sel))
    | _, _ => None
    end
  else if is_str (get step "action") "scroll" then
    interpolate (coalesce (get step "amount") (VNum 800))
                (fun t => "Scroll " +:+ t +:+ "px")
  else if is_str (get step "action") "wait" then
    interpolate (coalesce (get step "ms") (VNum 1000))
                (fun t => "Wait " +:+ t +:+ "ms")
  else if is_str (get step "action") "screenshot" then
    Some (VStr "Capture screenshot")
  else Some (get step "action").

(** ** Observer state *)

Record credentials := mkCredentials {
  username : string;
  email : string;
  password : string
}.

Inductive readyState := CONNECTING | OPEN | CLOSING | CLOSED.

Definition is_open (r : readyState) : bool :=
  match r with OPEN => true | _ => false end.

(** The socket behind [wsRef.current]: its ready state and what has been
    passed to [send], oldest first. *)
Record socket := mkSocket {
  ready : readyState;
  sent : list value
}.

(** The [useState] cells and the socket reference.  The elements of [steps]
    are the object literals the message handler builds. *)
Record state := mkState {
  goal : string;
  steps : list object;
  taskState : string;
  connection : string;
  frame : value;
  frameSource : value;
  activeIndex : value;
  logs : list value;
  priceResults : value;
  credentialsRequest : value;
  credentialsData : credentials;
  wsRef : option socket
}.

Definition emptyCredentials : credentials := mkCredentials "" "" "".

(** The [useState] and [useRef] initial values. *)
Definition initial : state :=
  mkState "" [] "idle" "disconnected" VNull VNull VNull [] VNull VNull
          emptyCredentials None.

Definition setGoal (x : string) (st : state) : state :=
  mkState x (steps st) (taskState st) (connection st) (frame st)
          (frameSource st) (activeIndex st) (logs st) (priceResults st)
          (credentialsRequest st) (credentialsData st) (wsRef st).

Definition setSteps (x : list object) (st : state) : state :=
  mkState (goal st) x (taskState st) (connection st) (frame st)
          (frameSource st) (activeIndex st) (logs st) (priceResults st)
          (credentialsRequest st) (credentialsData st) (wsRef st).

Definition setTaskState (x : string) (st : state) : state :=
  mkState (goal st) (steps st) x (connection st) (frame st)
          (frameSource st) (activeIndex st) (logs st) (priceResults st)
          (credentialsRequest st) (credentialsData st) (wsRef st).

Definition setConnection (x : string) (st : state) : state :=
  mkState (goal st) (steps st) (taskState st) x (frame st)
          (frameSource st) (activeIndex st) (logs st) (priceResults st)
          (credentialsRequest st) (credentialsData st) (wsRef st).

Definition setFrame (x : value) (st : state) : state :=
  mkState (goal st) (steps st) (taskState st) (connection st) x
          (frameSource st) (activeIndex st) (logs st) (priceResults st)
          (credentialsRequest st) (credentialsData st) (wsRef st).

Definition setFrameSource (x : value) (st : state) : state :=
  mkState (goal st) (steps st) (taskState st) (connection st) (frame st)
          x (activeIndex st) (logs st) (priceResults st)
          (credentialsRequest st) (credentialsData st) (wsRef st).

Definition setActiveIndex (x : value) (st : state) : state :=
  mkState (goal st) (steps st) (taskState st) (connection st) (frame st)
          (frameSource st) x (logs st) (priceResults st)
          (credentialsRequest st) (credentialsData st) (wsRef st).

Definition setLogs (x : list value) (st : state) : state :=
  mkState (goal st) (steps st) (taskState st) (connection st) (frame st)
          (frameSource st) (activeIndex st) x (priceResults st)
          (credentialsRequest st) (credentialsData st) (wsRef st).

Definition setPriceResults (x : value) (st : state) : state :=
  mkState (goal st) (steps st) (taskState st) (connection st) (frame st)
          (frameSource st) (activeIndex st) (logs st) x
          (credentialsRequest st) (credentialsData st) (wsRef st).

Definition setCredentialsRequest (x : value) (st : state) : state :=
  mkState (goal st) (steps st) (taskState st) (connection st) (frame st)
          (frameSource st) (activeIndex st) (logs st) (priceResults st)
          x (credentialsData st) (wsRef st).

Definition setCredentialsData (x : credentials) (st : state) : state :=
  mkState (goal st) (steps st) (taskState st) (connection st) (frame st)
          (frameSource st) (activeIndex st) (logs st) (priceResults st)
          (credentialsRequest st) x (wsRef st).

Definition setSocket (x : option socket) (st : state) : state :=
  mkState (goal st) (steps st) (taskState st) (connection st) (frame st)
          (frameSource st) (activeIndex st) (logs st) (priceResults st)
          (credentialsRequest st) (credentialsData st) x.

(** [wsRef.current.send(JSON.stringify(m))] on the socket [ws]: the outbox
    keeps the object that is serialised. *)
Definition send (m : value) (ws : socket) (st : state) : state :=
  setSocket (Some (mkSocket (ready ws) (sent ws ++ [m]))) st.

(** ** [progress] *)

Definition is_completed (s : object) : bool :=
  is_str (prop "status" s) "completed".

Definition completed (l : list object) : nat :=
  length (List.filter is_completed l).

(** [Math.round((completed / steps.length) * 100)] in binary64. *)
Definition percent (c n : nat) : Z :=
  Math_round (PrimFloat.mul (PrimFloat.div (num c) (num n)) (num 100)).

Definition progress (l : list object) : Z :=
  if Nat.eqb (length l) 0 then 0 else percent (completed l) (length l).

(** ** [ws.onmessage] *)

(** The element [TASK_STARTED] stores for a step of the plan, unless
    [buildDescription] throws. *)
Definition enrich (step : value) : option object :=
  match buildDescription step with
  | Some d =>
      Some (set_prop "duration_ms" VNull
              (set_prop "description" d
                 (set_prop "status" (VStr "pending") (spread step))))
  | None => None
  end.

Definition started (index : value) (idx : nat) (step : object) : object :=
  set_prop "status"
    (if is_index idx index then VStr "active"
     else if is_str (prop "status" step) "active" then VStr "pending"
     else prop "status" step)
    step.

Definition finished (message : value) (idx : nat) (step : object) : object :=
  if is_index idx (get message "index") then
    set_prop "duration_ms" (get message "duration_ms")
      (set_prop "status" (VStr "completed") step)
  else step.

Definition failed (message : value) (idx : nat) (step : object) : object :=
  if is_index idx (get message "index") then
    set_prop "error" (get message "error")
      (set_prop "duration_ms" (get message "duration_ms")
         (set_prop "status" (VStr "failed") step))
  else step.

(** [prev.slice(-19)] *)
Definition last19 (prev : list value) : list value :=
  drop (length prev - 19) prev.

(** The handler applied to the parsed message ([JSON.parse] throws on text
    that is not JSON, before any update).  Reading [message.type] of
    [null] throws before any update; [message.steps.map] throws on a truthy
    value that is not an array, and the mapping throws when
    [buildDescription] does for a step: both after
    [setTaskState('running')] and before [setSteps], so that the handler
    then leaves only the task state changed. *)
Definition onmessage (message : value) (st : state) : state :=
  match message with
  | VUndefined | VNull => st
  | _ =>
      let type := get message "type" in
      if is_str type "TASK_STARTED" then
        let st1 := setTaskState "running" st in
        if truthy (get message "steps") then
          match get message "steps" with
          | VArr l =>
              match mapM enrich l with
              | Some enriched =>
                  setActiveIndex VNull (setSteps enriched st1)
              | None => st1
              end
          | _ => st1
          end
        else st1
      else if is_str type "STEP_STARTED" then
        setActiveIndex (get message "index")
          (setSteps (imap (started (get message "index")) (steps st)) st)
      else if is_str type "STEP_COMPLETED" then
        setActiveIndex VNull (setSteps (imap (finished message) (steps st)) st)
      else if is_str type "STEP_FAILED" then
        setActiveIndex VNull (setSteps (imap (failed message) (steps st)) st)
      else if is_str type "TASK_COMPLETED" then
        setTaskState "completed" st
      else if is_str type "BROWSER_FRAME" then
        setFrameSource (or_else (get message "source") VNull)
          (setFrame (get message "image") st)
      else
        let st1 :=
          if is_str type "LOG" then setLogs (last19 (logs st) ++ [message]) st
          else st in
        let st2 :=
          if is_str type "PRICE_RESULTS" then setPriceResults message st1
          else st1 in
        if is_str type "CREDENTIALS_REQUIRED" then
          setCredentialsRequest (or_else (get message "fields") (VObj [])) st2
        else st2
  end.

(** ** Command handlers *)

Definition START_TASK (goal : string) : value :=
  VObj [("type", VStr "START_TASK"); ("goal", VStr goal)].

Definition CREDENTIALS_PROVIDED (d : credentials) : value :=
  VObj [("type", VStr "CREDENTIALS_PROVIDED");
        ("data", VObj [("username", VStr (username d));
                       ("email", VStr (email d));
                       ("password", VStr (password d))])].

Definition handleSubmit (st : state) : state :=
  if String.eqb (trim (goal st)) "" then st
  else
    match wsRef st with
    | None => st
    | Some ws =>
        if is_open (ready ws) then
          send (START_TASK (goal st)) ws (setTaskState "running" st)
        else st
    end.

Definition handleCredentialsSubmit (st : state) : state :=
  match wsRef st with
  | None => st
  | Some ws =>
      if is_open (ready ws) then
        setCredentialsData emptyCredentials
          (setCredentialsRequest VNull
             (send (CREDENTIALS_PROVIDED (credentialsData st)) ws st))
      else st
  end.

(** ** Events of the component

    Everything that can change the observer state: the effect that creates
    the socket, the socket's callbacks, and the controls the component
    renders.  A control that is disabled or not rendered does nothing. *)

Inductive event :=
| Mount
| SocketOpen
| SocketClose
| SocketError
| Message (m : value)
| TypeGoal (s : string)
| ClickLaunch
| TypeUsername (s : string)
| TypeEmail (s : string)
| TypePassword (s : string)
| ClickContinue.

Definition set_ready (r : readyState) (st : state) : state :=
  match wsRef st with
  | None => st
  | Some ws => setSocket (Some (mkSocket r (sent ws))) st
  end.

(** The credentials modal is rendered when [credentialsRequest] is truthy,
    each input when the request names its field. *)
Definition modal_open (st : state) : bool := truthy (credentialsRequest st).

Definition field_shown (k : string) (st : state) : bool :=
  modal_open st && truthy (get (credentialsRequest st) k).

Definition react (e : event) (st : state) : state :=
  match e with
  | Mount => setSocket (Some (mkSocket CONNECTING [])) st
  | SocketOpen => setConnection "connected" (set_ready OPEN st)
  | SocketClose => setConnection "disconnected" (set_ready CLOSED st)
  | SocketError => setConnection "error" st
  | Message m => onmessage m st
  | TypeGoal s => setGoal s st
  | ClickLaunch =>
      if String.eqb (taskState st) "running" then st else handleSubmit st
  | TypeUsername s =>
      if field_shown "username" st then
        setCredentialsData
          (mkCredentials s (email (credentialsData st))
             (password (credentialsData st))) st
      else st
  | TypeEmail s =>
      if field_shown "email" st then
        setCredentialsData
          (mkCredentials (username (credentialsData st)) s
             (password (credentialsData st))) st
      else st
  | TypePassword s =>
      if field_shown "password" st then
        setCredentialsData
          (mkCredentials (username (credentialsData st))
             (email (credentialsData st)) s) st
      else st
  | ClickContinue =>
      if modal_open st then handleCredentialsSubmit st else st
  end.

(** Events processed oldest first. *)
Definition run (es : list event) (st : state) : state :=
  fold_left (fun s e => react e s) es st.

(** States reachable from [initial] when every message, in the state it
    arrives in, satisfies [P]; the other events are unconstrained. *)
Definition allowed (P : state -> value -> Prop) (st : state) (e : event)
  : Prop :=
  match e with
  | Message m => P st m
  | _ => True
  end.

Inductive reachable_if (P : state -> value -> Prop) : state -> Prop :=
| reach_initial : reachable_if P initial
| reach_react st e :
    reachable_if P st -> allowed P st e -> reachable_if P (react e st).

Definition reachable : state -> Prop := reachable_if (fun _ _ => True).

(** ** Vocabulary of the properties *)

Definition status (s : object) : value := prop "status" s.
Definition duration_ms (s : object) : value := prop "duration_ms" s.

Definition is_active (s : object) : bool := is_str (status s) "active".

Definition active_count (l : list object) : nat :=
  length (List.filter is_active l).

Definition type_is (m : value) (t : string) : Prop :=
  is_str (get m "type") t = true.

(** The step at position [j] is the one the message's [index] names. *)
Definition addresses (m : value) (j : nat) : Prop :=
  is_index j (get m "index") = true.

(** One move of the step life cycle, or none. *)
Definition advances (a b : value) : Prop :=
  a = b
  \/ (a = VStr "pending" /\ b = VStr "active")
  \/ (a = VStr "active" /\ (b = VStr "completed" \/ b = VStr "failed")).

(** The moves the life cycle forbids. *)
Definition reverts (a b : value) : Prop :=
  (a = VStr "active" /\ b = VStr "pending")
  \/ (a = VStr "completed" /\ (b = VStr "active" \/ b = VStr "pending"))
  \/ (a = VStr "failed" /\ b <> VStr "failed").

(** The message arrives in the order the engine emits step events: a
    [TASK_STARTED] carries no new plan, a [STEP_STARTED] names a step that
    has not finished while no other step is active, and a [STEP_COMPLETED]
    or [STEP_FAILED] names the active step. *)
Definition in_lifecycle_order (st : state) (m : value) : Prop :=
  (type_is m "TASK_STARTED" -> truthy (get m "steps") = false)
  /\ (type_is m "STEP_STARTED" ->
      forall j s, steps st !! j = Some s ->
        if is_index j (get m "index")
        then status s = VStr "pending" \/ status s = VStr "active"
        else status s <> VStr "active")
  /\ (type_is m "STEP_COMPLETED" \/ type_is m "STEP_FAILED" ->
      forall j s, steps st !! j = Some s -> addresses m j ->
        status s = VStr "active").

(** The message does not take a completed step out of that status: it is
    no [TASK_STARTED], and a [STEP_STARTED] or [STEP_FAILED] does not name a
    completed step. *)
Definition keeps_completed (st : state) (m : value) : Prop :=
  ~ type_is m "TASK_STARTED"
  /\ (type_is m "STEP_STARTED" \/ type_is m "STEP_FAILED" ->
      forall j s, steps st !! j = Some s -> addresses m j ->
        is_completed s = false).



(** The nine message kinds the handler acts on. *)
Definition handled_types : list string :=
  ["TASK_STARTED"; "STEP_STARTED"; "STEP_COMPLETED"; "STEP_FAILED";
   "TASK_COMPLETED"; "BROWSER_FRAME"; "LOG"; "PRICE_RESULTS";
   "CREDENTIALS_REQUIRED"].

Definition handled (m : value) : bool :=
  existsb (is_str (get m "type")) handled_types.

(** 100 * c / n rounded to the closest integer, ties upwards, in exact
    arithmetic. *)
Definition round_percent (c n : nat) : Z :=
  (200 * Z.of_nat c + Z.of_nat n) / (2 * Z.of_nat n).

Definition exact_progress (l : list object) : Z :=
  if Nat.eqb (length l) 0 then 0 else round_percent (completed l) (length l).

(** The description [buildDescription] gives each action of the
    vocabulary, for parameters of the vocabulary's types: texts for [url],
    [selector] and [text], whole numbers (or nothing) for [amount] and
    [ms]. *)
Definition describes (step : value) (d : value) : Prop :=
  let action := get step "action" in
  (forall url, action = VStr "navigate" -> get step "url" = VStr url ->
     d = VStr ("Navigate to " +:+ url))
  /\ (forall selector, action = VStr "click" ->
        get step "selector" = VStr selector ->
        d = VStr ("Click " +:+ selector))
  /\ (forall text selector, action = VStr "type" ->
        get step "text" = VStr text -> get step "selector" = VStr selector ->
        d = VStr ("Type " +:+ dquote +:+ text +:+ dquote +:+ " in "
                  +:+ selector))
  /\ (action = VStr "scroll" ->
      (nullish (get step "amount") = true -> d = VStr "Scroll 800px")
      /\ (forall n, get step "amount" = VNum n ->
            d = VStr ("Scroll " +:+ number_to_string n +:+ "px")))
  /\ (action = VStr "wait" ->
      (nullish (get step "ms") = true -> d = VStr "Wait 1000ms")
      /\ (forall n, get step "ms" = VNum n ->
            d = VStr ("Wait " +:+ number_to_string n +:+ "ms")))
  /\ (action = VStr "screenshot" -> d = VStr "Capture screenshot").

(** Every step of the plan has a description: [buildDescription] throws
    for none of them. *)
Definition describable (plan : list value) : Prop :=
  Forall (fun step => buildDescription step <> None) plan.

Definition socket_open (st : state) : bool :=
  match wsRef st with
  | Some ws => is_open (ready ws)
  | None => false
  end.

Definition outbox (st : state) : list value :=
  match wsRef st with
  | Some ws => sent ws
  | None => []
  end.

(** The steps array after a message, read off [onmessage]. *)
Definition next_steps (m : value) (l : list object) : list object :=
  let type := get m "type" in
  if is_str type "TASK_STARTED" then
    match get m "steps" with
    | VArr plan =>
        match mapM enrich plan with
        | Some enriched => enriched
        | None => l
        end
    | _ => l
    end
  else if is_str type "STEP_STARTED" then imap (started (get m "index")) l
  else if is_str type "STEP_COMPLETED" then imap (finished m) l
  else if is_str type "STEP_FAILED" then imap (failed m) l
  else l.

(** No two positions of the array hold an active step. *)
Definition unique_active (l : list object) : Prop :=
  forall i j s t,
    l !! i = Some s -> l !! j = Some t ->
    is_active s = true -> is_active t = true -> i = j.

(** ** Messages used in the examples *)

Definition TASK_STARTED (plan : list value) : value :=
  VObj [("type", VStr "TASK_STARTED"); ("steps", VArr plan)].

Definition STEP_STARTED (i : Z) : value :=
  VObj [("type", VStr "STEP_STARTED"); ("index", VNum i)].

Definition STEP_COMPLETED (i d : Z) : value :=
  VObj [("type", VStr "STEP_COMPLETED"); ("index", VNum i);
        ("duration_ms", VNum d)].

Definition STEP_FAILED (i d : Z) (err : string) : value :=
  VObj [("type", VStr "STEP_FAILED"); ("index", VNum i);
        ("duration_ms", VNum d); ("error", VStr err)].

Definition TASK_COMPLETED : value := VObj [("type", VStr "TASK_COMPLETED")].

Definition navigate (url : string) : value :=
  VObj [("action", VStr "navigate"); ("url", VStr url)].

Definition click (selector : string) : value :=
  VObj [("action", VStr "click"); ("selector", VStr selector)].

Definition wait (ms : Z) : value :=
  VObj [("action", VStr "wait"); ("ms", VNum ms)].

Definition PING : value := VObj [("type", VStr "PING"); ("index", VNum 0)].

Definition running_state : state :=
  run [Mount; SocketOpen; Message (TASK_STARTED [navigate "example.com"]);
       Message (STEP_STARTED 0)] initial.

Definition demo_plan : list value :=
  [navigate "example.com"; click "#login"; wait 500].

(** A connected observer with a non-blank goal typed in. *)
Definition ready_state : state :=
  run [Mount; SocketOpen; TypeGoal "open example.com"] initial.

(** A connected observer asked for a user name and a password, with both
    typed in. *)
Definition asked_state : state :=
  run [Mount; SocketOpen;
       Message (VObj [("type", VStr "CREDENTIALS_REQUIRED");
                      ("fields", VObj [("username", VBool true);
                                       ("password", VBool true)])]);
       TypeUsername "a"; TypePassword "b"] initial.

(** A two-step run in which step 0 has been started. *)
Definition two_step_state : state :=
  run [Message (TASK_STARTED [navigate "example.com"; click "#go"]);
       Message (STEP_STARTED 0)] initial.

(** A one-step run whose step has completed. *)
Definition one_done_state : state :=
  run [Message (TASK_STARTED [navigate "example.com"]);
       Message (STEP_STARTED 0); Message (STEP_COMPLETED 0 12)] initial.

(** A forty-step run whose first 23 steps have completed. *)
Definition forty_state : state :=
  run (Message (TASK_STARTED (repeat (wait 100) 40))
       :: flat_map (fun i => [Message (STEP_STARTED i);
                              Message (STEP_COMPLETED i 100)])
            (map Z.of_nat (seq 0 23)))
      initial.

(** [percent] agrees with exact rounding for every count up to [n], for
    every total from 1 to [bound - 1]. *)
Definition percent_exact_upto (bound : nat) : bool :=
  forallb (fun n =>
             forallb (fun c => Z.eqb (percent c n) (round_percent c n))
                     (seq 0 (S n)))
          (seq 1 (bound - 1)).



(** A launched task that ran to completion. *)
Definition completed_state : state :=
  run [Mount; SocketOpen; TypeGoal "open example.com"; ClickLaunch;
       Message (TASK_STARTED [navigate "example.com"]);
       Message (STEP_STARTED 0); Message (STEP_COMPLETED 0 12);
       Message TASK_COMPLETED] initial.

(** The events that begin a run and the one that ends it. *)
Definition starts_run (e : event) : Prop :=
  e = ClickLaunch \/ exists m, e = Message m /\ type_is m "TASK_STARTED".

Definition completes_run (e : event) : Prop :=
  exists m, e = Message m /\ type_is m "TASK_COMPLETED".


(** A three-step run whose second step fails. *)
Definition failed_run : state :=
  run [Message (TASK_STARTED demo_plan); Message (STEP_STARTED 0);
       Message (STEP_COMPLETED 0 12); Message (STEP_STARTED 1);
       Message (STEP_FAILED 1 30 "selector not found")] initial.

(** Twenty-five log messages in a row. *)
Definition chatty_state : state :=
  run (repeat (Message (VObj [("type", VStr "LOG"); ("level", VStr "info");
                              ("message", VStr "tick")])) 25) initial.

(** ** Components

    What the components under [components/] compute from the observer
    state before they lay it out. *)

(** The result of [table[k]] on an object literal whose values are
    strings: an own property, a property inherited from [Object.prototype],
    or [undefined]; or the [TypeError] of turning the key into a string. *)
Inductive looked_up :=
| Own (s : string)
| Inherited
| Missing
| Throws.

Definition Object_prototype : list string :=
  ["constructor"; "__proto__"; "hasOwnProperty"; "isPrototypeOf";
   "propertyIsEnumerable"; "toLocaleString"; "toString"; "valueOf";
   "__defineGetter__"; "__defineSetter__"; "__lookupGetter__";
   "__lookupSetter__"].

Fixpoint own (table : list (string * string)) (k : string) : option string :=
  match table with
  | [] => None
  | (k', v) :: r => if String.eqb k' k then Some v else own r k
  end.

Definition lookup_literal (table : list (string * string)) (k : string)
  : looked_up :=
  match own table k with
  | Some v => Own v
  | None => if existsb (String.eqb k) Object_prototype then Inherited
            else Missing
  end.

(** [StepItem.jsx] *)

Definition statusStyles : list (string * string) :=
  [("pending", "border-edge text-slate-400");
   ("active", "border-accent text-accent");
   ("completed", "border-ok text-ok");
   ("failed", "border-err text-err")].

Definition statusLabel : list (string * string) :=
  [("pending", "Pending"); ("active", "Active"); ("completed", "Done");
   ("failed", "Failed")].

(** [const status = step.status || 'pending'] *)
Definition stepStatus (step : object) : value :=
  or_else (prop "status" step) (VStr "pending").

(** [statusLabel[status]] and [statusStyles[status]] *)
Definition stepLabel (step : object) : looked_up :=
  match ToString (stepStatus step) with
  | Some k => lookup_literal statusLabel k
  | None => Throws
  end.

Definition stepStyle (step : object) : looked_up :=
  match ToString (stepStatus step) with
  | Some k => lookup_literal statusStyles k
  | None => Throws
  end.

(** [Timeline.jsx]: the key of the item at position [index], unless the
    template literal throws. *)
Definition timelineKey (step : object) (index : nat) : option string :=
  match ToString (prop "action" step) with
  | Some a => Some (a +:+ "-" +:+ index_key index)
  | None => None
  end.

(** [BrowserView.jsx]: the entries the log panel maps over,
    [logs.slice(-5)] when [logs && logs.length > 0]. *)
Definition visibleLogs (logs : list value) : list value :=
  if Nat.ltb 0 (length logs) then drop (length logs - 5) logs else [].

(** [StatusBar.jsx] *)

Definition connectionColor : list (string * string) :=
  [("connected", "text-ok"); ("disconnected", "text-err");
   ("error", "text-warn")].

(** [connectionColor[connection] || 'text-slate-400'] *)
Definition connectionClass (connection : string) : looked_up :=
  match lookup_literal connectionColor connection with
  | Own c => if String.eqb c "" then Own "text-slate-400" else Own c
  | Inherited => Inherited
  | Missing => Own "text-slate-400"
  | Throws => Throws
  end.


(** The four statuses of the step vocabulary. *)
Definition step_statuses : list string :=
  ["pending"; "active"; "completed"; "failed"].

Definition status_known (s : object) : Prop :=
  exists t, In t step_statuses /\ status s = VStr t.

(** The stored description is the one [buildDescription] gives for the
    step as it is now; a step without an action has none, or the empty one
    of a plan entry that was null or blank. *)
Definition description_current (s : object) : Prop :=
  (prop "action" s <> VUndefined ->
   buildDescription (VObj s) = Some (prop "description" s))
  /\ (prop "action" s = VUndefined ->
      prop "description" s = VUndefined \/ prop "description" s = VStr "").

(** What the observer may send: the object of a [START_TASK] whose goal is
    not blank after trimming, or the object of a [CREDENTIALS_PROVIDED]. *)
Definition sendable (v : value) : Prop :=
  (exists g, v = VObj [("type", VStr "START_TASK"); ("goal", VStr g)]
             /\ trim g <> "")
  \/ exists u e p,
       v = VObj [("type", VStr "CREDENTIALS_PROVIDED");
                 ("data", VObj [("username", VStr u); ("email", VStr e);
                                ("password", VStr p)])].

(** Typed credentials are held only while the modal is open. *)
Definition secrets_cleared (st : state) : Prop :=
  modal_open st = false -> credentialsData st = emptyCredentials.

(** While the socket is open the indicator does not read disconnected. *)
Definition indicator_sound (st : state) : Prop :=
  socket_open st = true -> connection st <> "disconnected".

Definition connection_states : list string :=
  ["connected"; "disconnected"; "error"].

(** The character [c] occurs in [s]. *)
Fixpoint occurs (c : ascii) (s : string) : bool :=
  match s with
  | EmptyString => false
  | String x r => Ascii.eqb x c || occurs c r
  end.

(** ** Event streams of a run

    The messages the engine emits for a plan: the plan itself, then for
    each step in order its start and its completion with the duration
    [d i]; a run that succeeds ends with [TASK_COMPLETED], a run that fails
    at step [k] ends with that step's [STEP_FAILED]. *)

Definition step_ok (d : nat -> Z) (i : nat) : list event :=
  [Message (STEP_STARTED (Z.of_nat i));
   Message (STEP_COMPLETED (Z.of_nat i) (d i))].

Definition steps_ok (d : nat -> Z) (k : nat) : list event :=
  flat_map (step_ok d) (seq 0 k).

Definition successful_run (plan : list value) (d : nat -> Z) : list event :=
  Message (TASK_STARTED plan)
  :: (steps_ok d (length plan) ++ [Message TASK_COMPLETED])%list.

Definition failing_run (plan : list value) (d : nat -> Z) (k : nat)
  (err : string) : list event :=
  Message (TASK_STARTED plan)
  :: (steps_ok d k
      ++ [Message (STEP_STARTED (Z.of_nat k));
          Message (STEP_FAILED (Z.of_nat k) (d k) err)])%list.

(** The first [k] steps are completed with their durations, the others
    are pending without one. *)
Definition at_point (d : nat -> Z) (k : nat) (l : list object) : Prop :=
  forall j s, l !! j = Some s ->
    if (j <? k)%nat
    then status s = VStr "completed" /\ duration_ms s = VNum (d j)
    else status s = VStr "pending" /\ duration_ms s = VNull.

(** A string given by the bytes of its encoding. *)
Definition utf8 (bytes : list Z) : string :=
  string_of_list_ascii (map byte bytes).

(** U+2003 EM SPACE, U+FEFF, U+00E9 and U+1F600, encoded. *)
Definition em_space : string := utf8 [226; 128; 131].
Definition byte_order_mark : string := utf8 [239; 187; 191].
Definition e_acute : string := utf8 [195; 169].
Definition grinning_face : string := utf8 [240; 159; 152; 128].

(** A plan whose one step has a [url] that cannot be printed: an object
    with an own [toString] property. *)
Definition unprintable : value := VObj [("toString", VNum 1)].

Definition hostile_plan : list value :=
  [VObj [("action", VStr "navigate"); ("url", unprintable)]].

(** A plan whose numbers do not print digit by digit: 2^63, 10^21 and
    one half; its last step has no amount. *)
Definition numeric_plan : list value :=
  [wait (2 ^ 63);
   VObj [("action", VStr "scroll"); ("amount", VNum (10 ^ 21))];
   VObj [("action", VStr "scroll"); ("amount", VDouble 0.5)];
   VObj [("action", VStr "scroll"); ("amount", VNull)]].

(** A connected observer whose goal has white space around it, one whose
    goal is white space only (a space, U+2003 and U+FEFF), and one whose
    socket has closed. *)
Definition padded_state : state :=
  run [Mount; SocketOpen; TypeGoal "  open example.com "] initial.

Definition blank_state : state :=
  run [Mount; SocketOpen;
       TypeGoal (" " +:+ em_space +:+ byte_order_mark)] initial.

Definition closed_state : state :=
  run [Mount; SocketOpen; TypeGoal "open example.com"; SocketClose] initial.

(** * Properties *)

(** ** The embedding at work *)

Example Math_round_ties_up :
  Math_round 2.5%float = 3 /\ Math_round (-2.5)%float = -2
  /\ Math_round 57.5%float = 58 /\ Math_round 3%float = 3.
Proof. vm_compute. repeat split. Qed.

Example describe_type :
  buildDescription
    (VObj [("action", VStr "type"); ("selector", VStr "#q");
           ("text", VStr "hi")])
  = Some (VStr ("Type " +:+ dquote +:+ "hi" +:+ dquote +:+ " in #q")).
Proof. reflexivity. Qed.

Example describe_scroll_default :
  buildDescription (VObj [("action", VStr "scroll")])
  = Some (VStr "Scroll 800px").
Proof. vm_compute. reflexivity. Qed.

Example describe_unknown_action :
  buildDescription (VObj [("action", VStr "hover")]) = Some (VStr "hover").
Proof. reflexivity. Qed.

Example describe_null : buildDescription VNull = Some (VStr "").
Proof. reflexivity. Qed.

Example describe_unprintable :
  ToString unprintable = None
  /\ ToString (VArr [VStr "a"; unprintable]) = None
  /\ ToString (VObj [("valueOf", VNum 1)]) = Some "[object Object]"
  /\ buildDescription
       (VObj [("action", VStr "navigate"); ("url", unprintable)]) = None
  /\ buildDescription
       (VObj [("action", VStr "screenshot"); ("url", unprintable)])
     = Some (VStr "Capture screenshot").
Proof. repeat split. Qed.

Example print_numbers :
  number_to_string 500 = "500"
  /\ number_to_string (-42) = "-42"
  /\ number_to_string (2 ^ 53 + 1) = "9007199254740992"
  /\ number_to_string (2 ^ 63) = "9223372036854776000"
  /\ number_to_string (10 ^ 21 - 1) = "1e+21"
  /\ number_to_string 123456789012345678901234567890
     = "1.2345678901234568e+29"
  /\ number_to_string (10 ^ 400) = "Infinity"
  /\ double_to_string 12.5%float = "12.5"
  /\ double_to_string 0.5%float = "0.5"
  /\ double_to_string 0.000001%float = "0.000001"
  /\ double_to_string 1e-7%float = "1e-7"
  /\ double_to_string (0.1 + 0.2)%float = "0.30000000000000004"
  /\ double_to_string (-0)%float = "0".
Proof. vm_compute. repeat split. Qed.

Example print_array :
  ToString (VArr [VNum 1; VNull; VArr [VStr "a"; VBool true]; VObj []])
  = Some "1,,a,true,[object Object]".
Proof. vm_compute. reflexivity. Qed.

Example whole_numbers :
  is_index 3 (VDouble 3%float) = true
  /\ is_index 3 (VDouble 3.5%float) = false
  /\ is_index 0 (VDouble (-0)%float) = true
  /\ truthy (VDouble 0.5%float) = true
  /\ truthy (VDouble (-0)%float) = false.
Proof. vm_compute. repeat split. Qed.

Example trim_goal :
  trim "  open example.com  " = "open example.com"
  /\ trim (em_space +:+ "go" +:+ byte_order_mark) = "go"
  /\ trim (" " +:+ em_space +:+ byte_order_mark) = ""
  /\ trim (e_acute +:+ " ") = e_acute
  /\ trim "a b" = "a b".
Proof. vm_compute. repeat split. Qed.

Example spread_code_units :
  spread (VStr ("a" +:+ e_acute +:+ grinning_face))
  = [("0", VStr "a"); ("1", VStr e_acute);
     ("2", VStr (utf8 [237; 160; 189])); ("3", VStr (utf8 [237; 184; 128]))].
Proof. vm_compute. reflexivity. Qed.

Example logs_keep_last_twenty : length (logs chatty_state) = 20%nat.
Proof. reflexivity. Qed.

Example failed_run_view :
  map status (steps failed_run)
  = [VStr "completed"; VStr "failed"; VStr "pending"]
  /\ progress (steps failed_run) = 33
  /\ activeIndex failed_run = VNull
  /\ taskState failed_run = "running".
Proof. vm_compute. repeat split. Qed.

(** ** Objects *)

Lemma prop_set_prop_eq k v o : prop k (set_prop k v o) = v.
Proof.
  induction o as [|[k' v'] r IH]; simpl.
  - now rewrite String.eqb_refl.
  - destruct (String.eqb k' k) eqn:E; simpl.
    + now rewrite String.eqb_refl.
    + now rewrite E.
Qed.

Lemma prop_set_prop_ne k k' v o :
  k <> k' -> prop k (set_prop k' v o) = prop k o.
Proof.
  intros Hne. induction o as [|[k0 v0] r IH]; simpl.
  - destruct (String.eqb_spec k' k); congruence.
  - destruct (String.eqb_spec k0 k'); simpl.
    + subst k0. destruct (String.eqb_spec k' k); congruence.
    + now rewrite IH.
Qed.

Lemma is_str_eq v s : is_str v s = true <-> v = VStr s.
Proof.
  destruct v; simpl; try (split; [discriminate | congruence]).
  destruct (String.eqb_spec s0 s); split; congruence.
Qed.

Lemma classic_object v : (exists o, v = VObj o) \/ forall o, v <> VObj o.
Proof. destruct v; try (right; discriminate). left. eauto. Qed.

Lemma is_index_inj i j v : is_index i v = true -> is_index j v = true -> i = j.
Proof.
  destruct v; simpl; try discriminate.
  - intros ?%Z.eqb_eq ?%Z.eqb_eq. lia.
  - destruct (whole x); [|discriminate].
    intros ?%Z.eqb_eq ?%Z.eqb_eq. lia.
Qed.


(** ** Messages of an unknown kind *)

Lemma handled_false m :
  handled m = false ->
  Forall (fun t => is_str (get m "type") t = false) handled_types.
Proof.
  unfold handled. intros H. apply List.Forall_forall. intros t Ht.
  destruct (is_str (get m "type") t) eqn:E; [|reflexivity].
  rewrite <- H. symmetry. apply existsb_exists. exists t. split; assumption.
Qed.

(** C6. A message whose [type] is none of the nine kinds the handler acts
    on leaves the whole observer state as it was: steps, task state, active
    index, frame and frame source, logs, price results, credentials request
    and everything else.  In particular a running task stays running. *)
Theorem unknown_message_discarded (m : value) (st : state) :
  handled m = false -> onmessage m st = st.
Proof.
  intros H%handled_false. unfold handled_types in H.
  repeat match goal with
         | H : Forall _ (_ :: _) |- _ => apply Forall_cons_iff in H as [? H]
         end.
  unfold onmessage.
  destruct m; try reflexivity;
    repeat match goal with E : is_str _ _ = false |- _ => rewrite E; clear E end;
    reflexivity.
Qed.

Lemma unknown_message_discarded_witness :
  handled PING = false
  /\ onmessage PING running_state = running_state
  /\ taskState (onmessage PING running_state) = "running".
Proof.
  split; [reflexivity|].
  split.
  - apply (unknown_message_discarded PING running_state). reflexivity.
  - rewrite (unknown_message_discarded PING running_state); reflexivity.
Defined.

(** ** The initial plan *)

Lemma number_800 : number_to_string 800 = "800".
Proof. vm_compute. reflexivity. Qed.

Lemma number_1000 : number_to_string 1000 = "1000".
Proof. vm_compute. reflexivity. Qed.

Lemma buildDescription_object o :
  buildDescription (VObj o)
  = let action := prop "action" o in
    if is_str action "navigate" then
      interpolate (prop "url" o) (fun t => "Navigate to " +:+ t)
    else if is_str action "click" then
      interpolate (prop "selector" o) (fun t => "Click " +:+ t)
    else if is_str action "type" then
      match ToString (prop "text" o), ToString (prop "selector" o) with
      | Some t, Some sel =>
          Some (VStr ("Type " +:+ dquote +:+ t +:+ dquote +:+ " in " +:+ sel))
      | _, _ => None
      end
    else if is_str action "scroll" then
      interpolate (coalesce (prop "amount" o) (VNum 800))
                  (fun t => "Scroll " +:+ t +:+ "px")
    else if is_str action "wait" then
      interpolate (coalesce (prop "ms" o) (VNum 1000))
                  (fun t => "Wait " +:+ t +:+ "ms")
    else if is_str action "screenshot" then Some (VStr "Capture screenshot")
    else Some action.
Proof. reflexivity. Qed.

Lemma buildDescription_primitive step :
  (forall o, step <> VObj o) ->
  buildDescription step = Some (VStr "")
  \/ buildDescription step = Some VUndefined.
Proof.
  intros H. unfold buildDescription.
  destruct (negb (truthy step)); [now left|].
  destruct step; try (now right). now destruct (H o).
Qed.

Lemma interpolate_text s k : interpolate (VStr s) k = Some (VStr (k s)).
Proof. reflexivity. Qed.

Lemma interpolate_number n k :
  interpolate (VNum n) k = Some (VStr (k (number_to_string n))).
Proof. reflexivity. Qed.

Lemma buildDescription_describes step d :
  buildDescription step = Some d -> describes step d.
Proof.
  unfold describes. destruct step as [| | | | | |o|];
    try (intros _; repeat split; intros; discriminate).
  rewrite buildDescription_object. unfold get. cbv zeta.
  intros H. repeat split.
  - intros url A U. rewrite A, U, interpolate_text in H. simpl in H.
    now injection H as <-.
  - intros selector A U. rewrite A, U, interpolate_text in H. simpl in H.
    now injection H as <-.
  - intros text selector A T U. rewrite A, T, U in H. simpl in H. now injection H as <-.
  - intros N. rewrite H0 in H. unfold coalesce in H. rewrite N in H.
    rewrite interpolate_number, number_800 in H. simpl in H. now injection H as <-.
  - intros n N. rewrite H0, N in H. unfold coalesce in H. simpl in H.
    rewrite interpolate_number in H. now injection H as <-.
  - intros N. rewrite H0 in H. unfold coalesce in H. rewrite N in H.
    rewrite interpolate_number, number_1000 in H. simpl in H. now injection H as <-.
  - intros n N. rewrite H0, N in H. unfold coalesce in H. simpl in H.
    rewrite interpolate_number in H. now injection H as <-.
  - intros A. rewrite A in H. simpl in H. now injection H as <-.
Qed.

Lemma enrich_Some step s :
  enrich step = Some s ->
  exists d, buildDescription step = Some d
    /\ s = set_prop "duration_ms" VNull
             (set_prop "description" d
                (set_prop "status" (VStr "pending") (spread step))).
Proof.
  unfold enrich. destruct (buildDescription step) as [d|]; [|discriminate].
  intros [= <-]. eauto.
Qed.

Lemma enrich_None step : enrich step = None <-> buildDescription step = None.
Proof.
  unfold enrich. destruct (buildDescription step); split; congruence.
Qed.

Lemma enrich_status step s : enrich step = Some s -> status s = VStr "pending".
Proof.
  intros (d & _ & ->)%enrich_Some. unfold status.
  rewrite !prop_set_prop_ne by discriminate. apply prop_set_prop_eq.
Qed.

Lemma enrich_duration step s : enrich step = Some s -> duration_ms s = VNull.
Proof.
  intros (d & _ & ->)%enrich_Some. unfold duration_ms. apply prop_set_prop_eq.
Qed.

Lemma enrich_description step s :
  enrich step = Some s ->
  buildDescription step = Some (prop "description" s).
Proof.
  intros (d & Hd & ->)%enrich_Some.
  rewrite prop_set_prop_ne by discriminate. now rewrite prop_set_prop_eq.
Qed.

Lemma enrich_other step s k :
  enrich step = Some s ->
  k <> "status" -> k <> "description" -> k <> "duration_ms" ->
  prop k s = prop k (spread step).
Proof.
  intros (d & _ & ->)%enrich_Some ? ? ?. now rewrite !prop_set_prop_ne.
Qed.

Lemma plan_cases plan :
  (describable plan
   /\ exists l, mapM enrich plan = Some l
        /\ Forall2 (fun x y => enrich x = Some y) plan l)
  \/ (~ describable plan /\ mapM enrich plan = None).
Proof.
  unfold describable. destruct (mapM enrich plan) as [l|] eqn:E.
  - left. apply mapM_Some_1 in E. split; [|eauto].
    apply Forall_forall. intros x [i Hi]%list_elem_of_lookup.
    destruct (Forall2_lookup_l _ _ _ _ _ E Hi) as (y & _ & Hy).
    apply enrich_Some in Hy as (d & -> & _). discriminate.
  - right. split; [|reflexivity]. intros F.
    apply mapM_None_1, Exists_exists in E as (x & Hx & N).
    apply enrich_None in N. rewrite Forall_forall in F. now apply (F x).
Qed.

Lemma onmessage_plan m plan st :
  type_is m "TASK_STARTED" ->
  get m "steps" = VArr plan ->
  onmessage m st
  = match mapM enrich plan with
    | Some l => setActiveIndex VNull (setSteps l (setTaskState "running" st))
    | None => setTaskState "running" st
    end.
Proof.
  unfold type_is. intros Ht Hs. unfold onmessage.
  destruct m; try discriminate Ht. rewrite Ht, Hs. reflexivity.
Qed.

(** C8, as the specification states it, fails: a [TASK_STARTED] that
    carries a steps list in which a printed parameter is an object with an
    own [toString] property makes [buildDescription] throw inside
    [message.steps.map]; the handler has set the task state to running by
    then and stops there, so the previous steps and active index stay
    stored and no step of the new plan is. *)
Lemma unprintable_plan_not_stored :
  type_is (TASK_STARTED hostile_plan) "TASK_STARTED"
  /\ get (TASK_STARTED hostile_plan) "steps" = VArr hostile_plan
  /\ taskState (onmessage (TASK_STARTED hostile_plan) two_step_state)
     = "running"
  /\ steps (onmessage (TASK_STARTED hostile_plan) two_step_state)
     = steps two_step_state
  /\ length (steps (onmessage (TASK_STARTED hostile_plan) two_step_state))
     <> length hostile_plan
  /\ activeIndex (onmessage (TASK_STARTED hostile_plan) two_step_state)
     = VNum 0
  /\ map status (steps (onmessage (TASK_STARTED hostile_plan) two_step_state))
     = [VStr "active"; VStr "pending"]
  /\ buildDescription (VObj [("action", VStr "navigate");
                             ("url", VObj [("toString", VNum 1)])]) = None.
Proof. vm_compute. repeat split; discriminate. Qed.

(** C8, amended.  The handler builds every description before it stores
    anything.  A [TASK_STARTED] message that carries a steps list each step
    of which has a description ([buildDescription] throws for none) puts
    the observer in the initial-plan state: the task state is running, no
    step is active ([activeIndex] is null), and the stored list has one
    step per step of the plan, in order, each with status pending,
    [duration_ms] null, its own action and parameters, and the description
    [buildDescription] derives from them (navigate, click, type, scroll,
    wait, screenshot).  When [buildDescription] throws for a step, the
    handler has only set the task state to running. *)
Theorem task_started_initial_plan (m : value) (plan : list value) (st : state) :
  type_is m "TASK_STARTED" ->
  get m "steps" = VArr plan ->
  (describable plan ->
   taskState (onmessage m st) = "running"
   /\ activeIndex (onmessage m st) = VNull
   /\ length (steps (onmessage m st)) = length plan
   /\ forall i step, plan !! i = Some step ->
        exists s d, steps (onmessage m st) !! i = Some s
          /\ status s = VStr "pending"
          /\ duration_ms s = VNull
          /\ buildDescription step = Some d
          /\ prop "description" s = d
          /\ describes step d
          /\ forall k, k <> "status" -> k <> "description" ->
               k <> "duration_ms" -> prop k s = prop k (spread step))
  /\ (~ describable plan -> onmessage m st = setTaskState "running" st).
Proof.
  intros Ht Hs. rewrite (onmessage_plan m plan st Ht Hs).
  destruct (plan_cases plan) as [(D & l & -> & F)|(D & ->)].
  - split; [|intros N; now destruct N]. intros _. simpl.
    split; [reflexivity|]. split; [reflexivity|].
    split; [symmetry; eapply Forall2_length, F|].
    intros i step Hi.
    destruct (Forall2_lookup_l _ _ _ _ _ F Hi) as (s & Hl & Hy).
    pose proof (enrich_description _ _ Hy) as Hd.
    exists s, (prop "description" s).
    split; [exact Hl|]. split; [eapply enrich_status, Hy|].
    split; [eapply enrich_duration, Hy|]. split; [exact Hd|].
    split; [reflexivity|].
    split; [now apply buildDescription_describes|].
    intros k. now apply enrich_other.
  - split; [intros F; now destruct D|reflexivity].
Qed.

Lemma task_started_initial_plan_witness :
  type_is (TASK_STARTED demo_plan) "TASK_STARTED"
  /\ get (TASK_STARTED demo_plan) "steps" = VArr demo_plan
  /\ describable demo_plan
  /\ taskState (onmessage (TASK_STARTED demo_plan) initial) = "running"
  /\ activeIndex (onmessage (TASK_STARTED demo_plan) initial) = VNull
  /\ length (steps (onmessage (TASK_STARTED demo_plan) initial))
     = length demo_plan
  /\ map (prop "description")
       (steps (onmessage (TASK_STARTED demo_plan) initial))
     = [VStr "Navigate to example.com"; VStr "Click #login";
        VStr "Wait 500ms"]
  /\ map (prop "description")
       (steps (onmessage (TASK_STARTED numeric_plan) initial))
     = [VStr "Wait 9223372036854776000ms"; VStr "Scroll 1e+21px";
        VStr "Scroll 0.5px"; VStr "Scroll 800px"]
  /\ ~ describable hostile_plan
  /\ onmessage (TASK_STARTED hostile_plan) two_step_state
     = setTaskState "running" two_step_state.
Proof.
  assert (D : describable demo_plan).
  { repeat constructor; vm_compute; discriminate. }
  assert (N : ~ describable hostile_plan).
  { intros H. inversion H as [|x l Hx _]; subst. now apply Hx. }
  split; [reflexivity|]. split; [reflexivity|]. split; [exact D|].
  destruct (task_started_initial_plan (TASK_STARTED demo_plan) demo_plan
              initial eq_refl eq_refl) as [Hyes _].
  destruct (Hyes D) as (H1 & H2 & H3 & _).
  destruct (task_started_initial_plan (TASK_STARTED hostile_plan)
              hostile_plan two_step_state eq_refl eq_refl) as [_ Hno].
  split; [exact H1|]. split; [exact H2|]. split; [exact H3|].
  split; [vm_compute; reflexivity|]. split; [vm_compute; reflexivity|].
  split; [exact N|exact (Hno N)].
Defined.

(** ** Command handlers *)

(** C10. [handleSubmit] sends a [START_TASK] message, the object
    [{type: 'START_TASK', goal}] with the goal as typed, and sets the task
    state to running exactly when the goal is not blank after trimming and
    the socket is open, changing nothing else; when the trimmed goal is
    empty or the socket is missing or not open, it sends nothing and leaves
    the whole observer state as it was. *)
Theorem handleSubmit_guard (st : state) :
  (trim (goal st) <> "" /\ socket_open st = true ->
   taskState (handleSubmit st) = "running"
   /\ outbox (handleSubmit st)
      = (outbox st
         ++ [VObj [("type", VStr "START_TASK"); ("goal", VStr (goal st))]])%list
   /\ socket_open (handleSubmit st) = true
   /\ exists ws, wsRef st = Some ws
        /\ handleSubmit st
           = setSocket
               (Some (mkSocket (ready ws)
                        (sent ws
                         ++ [VObj [("type", VStr "START_TASK");
                                   ("goal", VStr (goal st))]])))
               (setTaskState "running" st))
  /\ (trim (goal st) = "" \/ socket_open st = false ->
      handleSubmit st = st).
Proof.
  unfold handleSubmit, socket_open, outbox.
  split.
  - intros [Hg Ho]. destruct (String.eqb_spec (trim (goal st)) ""); [easy|].
    destruct (wsRef st) as [ws|] eqn:W; [|discriminate].
    rewrite Ho. simpl. rewrite Ho. eauto 6.
  - intros [-> | Ho]; [reflexivity|].
    destruct (String.eqb _ _); [reflexivity|].
    destruct (wsRef st) as [ws|]; [|reflexivity]. now rewrite Ho.
Qed.

Lemma handleSubmit_guard_witness :
  (trim (goal padded_state) <> "" /\ socket_open padded_state = true)
  /\ taskState padded_state = "idle"
  /\ taskState (handleSubmit padded_state) = "running"
  /\ outbox (handleSubmit padded_state)
     = [VObj [("type", VStr "START_TASK");
              ("goal", VStr "  open example.com ")]]
  /\ (trim (goal blank_state) = "" /\ socket_open blank_state = true
      /\ goal blank_state <> "")
  /\ handleSubmit blank_state = blank_state
  /\ (trim (goal closed_state) <> "" /\ socket_open closed_state = false)
  /\ handleSubmit closed_state = closed_state.
Proof.
  pose proof (handleSubmit_guard padded_state) as [Hyes _].
  pose proof (handleSubmit_guard blank_state) as [_ Hblank].
  pose proof (handleSubmit_guard closed_state) as [_ Hclosed].
  assert (Hp : trim (goal padded_state) <> ""
               /\ socket_open padded_state = true)
    by (split; [vm_compute; discriminate|reflexivity]).
  assert (Hb : trim (goal blank_state) = "" /\ socket_open blank_state = true
               /\ goal blank_state <> "")
    by (split; [vm_compute; reflexivity|];
        split; [reflexivity|vm_compute; discriminate]).
  assert (Hc : trim (goal closed_state) <> ""
               /\ socket_open closed_state = false)
    by (split; [vm_compute; discriminate|reflexivity]).
  destruct (Hyes Hp) as (H1 & H2 & _).
  split; [exact Hp|]. split; [reflexivity|]. split; [exact H1|].
  split; [exact H2|]. split; [exact Hb|].
  split; [exact (Hblank (or_introl (proj1 Hb)))|].
  split; [exact Hc|exact (Hclosed (or_intror (proj2 Hc)))].
Defined.

(** C9. Submitting credentials over an open socket sends exactly one
    message, the object [{type: 'CREDENTIALS_PROVIDED', data}] whose data
    are the user name, email and password as typed; clears the credentials
    request to null, which closes the modal, so that its Continue button
    cannot submit a second time for the same request; and resets user
    name, email and password to the empty string, so that no secret stays
    in the observer state.  Nothing else changes. *)
Theorem credentials_submitted_once (st : state) (ws : socket) :
  wsRef st = Some ws ->
  ready ws = OPEN ->
  outbox (handleCredentialsSubmit st)
  = (sent ws
     ++ [VObj [("type", VStr "CREDENTIALS_PROVIDED");
               ("data",
                VObj [("username", VStr (username (credentialsData st)));
                      ("email", VStr (email (credentialsData st)));
                      ("password", VStr (password (credentialsData st)))])]])%list
  /\ credentialsRequest (handleCredentialsSubmit st) = VNull
  /\ modal_open (handleCredentialsSubmit st) = false
  /\ react ClickContinue (handleCredentialsSubmit st)
     = handleCredentialsSubmit st
  /\ username (credentialsData (handleCredentialsSubmit st)) = ""
  /\ email (credentialsData (handleCredentialsSubmit st)) = ""
  /\ password (credentialsData (handleCredentialsSubmit st)) = ""
  /\ handleCredentialsSubmit st
     = setCredentialsData (mkCredentials "" "" "")
         (setCredentialsRequest VNull
            (setSocket
               (Some (mkSocket OPEN
                        (sent ws
                         ++ [VObj [("type", VStr "CREDENTIALS_PROVIDED");
                                   ("data",
                                    VObj [("username",
                                           VStr (username (credentialsData st)));
                                          ("email",
                                           VStr (email (credentialsData st)));
                                          ("password",
                                           VStr (password
                                                   (credentialsData st)))])]])))
               st)).
Proof.
  intros W R.
  assert (E : handleCredentialsSubmit st
              = setCredentialsData emptyCredentials
                  (setCredentialsRequest VNull
                     (send (CREDENTIALS_PROVIDED (credentialsData st)) ws st))).
  { unfold handleCredentialsSubmit. rewrite W, R. reflexivity. }
  rewrite E. unfold send. rewrite R. repeat split.
Qed.

Lemma credentials_submitted_once_witness :
  wsRef asked_state = Some (mkSocket OPEN [])
  /\ password (credentialsData asked_state) = "b"
  /\ outbox (handleCredentialsSubmit asked_state)
     = [VObj [("type", VStr "CREDENTIALS_PROVIDED");
              ("data", VObj [("username", VStr "a"); ("email", VStr "");
                             ("password", VStr "b")])]]
  /\ credentialsRequest (handleCredentialsSubmit asked_state) = VNull
  /\ modal_open (handleCredentialsSubmit asked_state) = false
  /\ password (credentialsData (handleCredentialsSubmit asked_state)) = "".
Proof.
  split; [reflexivity|]. split; [reflexivity|].
  pose proof (credentials_submitted_once asked_state (mkSocket OPEN [])
                eq_refl eq_refl) as (H1 & H2 & H3 & _ & _ & _ & H4 & _).
  exact (conj H1 (conj H2 (conj H3 H4))).
Defined.

(** ** The steps array under the handlers *)

Lemma steps_onmessage m st : steps (onmessage m st) = next_steps m (steps st).
Proof.
  unfold onmessage, next_steps.
  destruct m; try reflexivity.
  repeat match goal with
         | |- context [if is_str ?v ?t then _ else _] =>
             destruct (is_str v t)
         | |- context [if truthy ?v then _ else _] =>
             destruct v eqn:?; simpl
         | |- context [mapM enrich ?l] => destruct (mapM enrich l)
         | |- context [if ?b then _ else _] => destruct b
         end; reflexivity.
Qed.

Lemma steps_handleSubmit st : steps (handleSubmit st) = steps st.
Proof.
  unfold handleSubmit.
  destruct (String.eqb _ _); [reflexivity|].
  destruct (wsRef st) as [ws|]; [|reflexivity].
  destruct (is_open _); reflexivity.
Qed.

Lemma steps_handleCredentialsSubmit st :
  steps (handleCredentialsSubmit st) = steps st.
Proof.
  unfold handleCredentialsSubmit.
  destruct (wsRef st) as [ws|]; [|reflexivity].
  destruct (is_open _); reflexivity.
Qed.

Lemma steps_react e st :
  steps (react e st)
  = match e with Message m => next_steps m (steps st) | _ => steps st end.
Proof.
  destruct e; simpl; try reflexivity.
  - unfold set_ready. destruct (wsRef st); reflexivity.
  - unfold set_ready. destruct (wsRef st); reflexivity.
  - apply steps_onmessage.
  - destruct (String.eqb _ _); [reflexivity|apply steps_handleSubmit].
  - destruct (field_shown _ _); reflexivity.
  - destruct (field_shown _ _); reflexivity.
  - destruct (field_shown _ _); reflexivity.
  - destruct (modal_open _); [apply steps_handleCredentialsSubmit|reflexivity].
Qed.

Lemma status_started v i s :
  status (started v i s)
  = if is_index i v then VStr "active"
    else if is_str (status s) "active" then VStr "pending" else status s.
Proof. unfold status, started. apply prop_set_prop_eq. Qed.

Lemma status_finished m i s :
  status (finished m i s)
  = if is_index i (get m "index") then VStr "completed" else status s.
Proof.
  unfold status, finished. destruct (is_index _ _); [|reflexivity].
  rewrite prop_set_prop_ne by discriminate. apply prop_set_prop_eq.
Qed.

Lemma status_failed m i s :
  status (failed m i s)
  = if is_index i (get m "index") then VStr "failed" else status s.
Proof.
  unfold status, failed. destruct (is_index _ _); [|reflexivity].
  rewrite !prop_set_prop_ne by discriminate. apply prop_set_prop_eq.
Qed.

Lemma length_next_steps m l :
  ~ type_is m "TASK_STARTED" -> length (next_steps m l) = length l.
Proof.
  unfold type_is, next_steps. intros H.
  destruct (is_str (get m "type") "TASK_STARTED"); [congruence|].
  repeat match goal with
         | |- context [if ?b then _ else _] => destruct b
         end; rewrite ?length_imap; reflexivity.
Qed.

(** ** At most one active step *)

Lemma is_active_started v i s : is_active (started v i s) = is_index i v.
Proof.
  unfold is_active. rewrite status_started.
  destruct (is_index i v); [reflexivity|].
  destruct (is_str (status s) "active") eqn:E; [reflexivity|exact E].
Qed.

Lemma is_active_finished m i s :
  is_active (finished m i s) = true -> is_active s = true.
Proof.
  unfold is_active. rewrite status_finished.
  destruct (is_index _ _); [discriminate|trivial].
Qed.

Lemma is_active_failed m i s :
  is_active (failed m i s) = true -> is_active s = true.
Proof.
  unfold is_active. rewrite status_failed.
  destruct (is_index _ _); [discriminate|trivial].
Qed.

Lemma is_active_enrich step s : enrich step = Some s -> is_active s = false.
Proof. intros H. unfold is_active. now rewrite (enrich_status _ _ H). Qed.

(** After a [TASK_STARTED] the steps are the old ones, or every one of them
    is a freshly stored step of the plan. *)
Lemma task_started_steps m l :
  is_str (get m "type") "TASK_STARTED" = true ->
  next_steps m l = l
  \/ forall j s, next_steps m l !! j = Some s ->
                 exists step, enrich step = Some s.
Proof.
  unfold next_steps. intros ->.
  destruct (get m "steps") as [| | | | |plan| |]; auto.
  destruct (mapM enrich plan) as [k|] eqn:E; auto.
  right. intros j s Hj. apply mapM_Some_1 in E.
  destruct (Forall2_lookup_r _ _ _ _ _ E Hj) as (x & _ & Hx). eauto.
Qed.

Lemma unique_active_next m l : unique_active l -> unique_active (next_steps m l).
Proof.
  intros U.
  destruct (is_str (get m "type") "TASK_STARTED") eqn:T.
  { destruct (task_started_steps m l T) as [->|E]; [exact U|].
    intros i j s t Hi _ Hs _. destruct (E i s Hi) as (step & Hstep).
    now rewrite (is_active_enrich _ _ Hstep) in Hs. }
  unfold next_steps. rewrite T.
  destruct (is_str _ "STEP_STARTED").
  { intros i j s t Hi Hj Hs Ht.
    apply list_lookup_imap_Some in Hi as (s0 & _ & ->).
    apply list_lookup_imap_Some in Hj as (t0 & _ & ->).
    rewrite is_active_started in Hs, Ht. eapply is_index_inj; eassumption. }
  destruct (is_str _ "STEP_COMPLETED").
  { intros i j s t Hi Hj Hs Ht.
    apply list_lookup_imap_Some in Hi as (s0 & Hi & ->).
    apply list_lookup_imap_Some in Hj as (t0 & Hj & ->).
    eapply U; eauto using is_active_finished. }
  destruct (is_str _ "STEP_FAILED"); [|exact U].
  intros i j s t Hi Hj Hs Ht.
  apply list_lookup_imap_Some in Hi as (s0 & Hi & ->).
  apply list_lookup_imap_Some in Hj as (t0 & Hj & ->).
  eapply U; eauto using is_active_failed.
Qed.

Lemma unique_active_count l : unique_active l -> (active_count l <= 1)%nat.
Proof.
  unfold active_count. induction l as [|s r IH]; intros U; simpl; [lia|].
  assert (Ur : unique_active r).
  { intros i j a b Hi Hj Ha Hb.
    specialize (U (S i) (S j) a b Hi Hj Ha Hb). lia. }
  destruct (is_active s) eqn:E; [|auto].
  assert (Hr : List.filter is_active r = []).
  { destruct (List.filter is_active r) as [|t r'] eqn:F; [reflexivity|].
    assert (Ht : List.In t (List.filter is_active r)) by (rewrite F; now left).
    apply filter_In in Ht as [Hin Ht].
    apply list_elem_of_In, list_elem_of_lookup in Hin as [j Hj].
    specialize (U 0%nat (S j) s t eq_refl Hj E Ht). discriminate. }
  rewrite Hr. simpl. lia.
Qed.

(** C2. At most one step is active at any time: after any sequence of
    events processed from the initial observer state (inbound messages of
    any kind and content, socket callbacks and user commands), the steps
    array holds at most one step whose status is active. *)
Theorem at_most_one_active (es : list event) :
  (active_count (steps (run es initial)) <= 1)%nat.
Proof.
  apply unique_active_count.
  assert (G : forall st, unique_active (steps st) ->
                         unique_active (steps (run es st))).
  { induction es as [|e es IH]; intros st U; simpl; [exact U|].
    apply IH. rewrite steps_react.
    destruct e; try exact U. now apply unique_active_next. }
  apply G. intros i j s t Hi. destruct i; discriminate.
Qed.

Example one_active_after_start :
  active_count (steps two_step_state) = 1%nat.
Proof. reflexivity. Qed.

(** ** Reachability *)

Lemma reachable_run_from es st : reachable st -> reachable (run es st).
Proof.
  revert st. induction es as [|e es IH]; intros st R; simpl; [exact R|].
  apply IH. apply reach_react; [exact R|]. destruct e; exact I.
Qed.

Lemma reachable_run es : reachable (run es initial).
Proof. apply reachable_run_from, reach_initial. Qed.

(** ** Step status *)

Lemma advances_not_reverts a b : advances a b -> ~ reverts a b.
Proof.
  unfold advances, reverts.
  intros [->|[[-> ->]|[-> [->| ->]]]] [[? ?]|[[? [?|?]]|[? ?]]];
    congruence.
Qed.

(** C1, as the specification states it, fails: from a reachable state in
    which step 0 is active, a [STEP_STARTED] for step 1 puts step 0 back to
    pending. *)
Lemma step_started_reverts_active :
  reachable two_step_state
  /\ exists s s',
       steps two_step_state !! 0%nat = Some s
       /\ steps (onmessage (STEP_STARTED 1) two_step_state) !! 0%nat = Some s'
       /\ status s = VStr "active"
       /\ status s' = VStr "pending"
       /\ reverts (status s) (status s').
Proof.
  split; [apply reachable_run|].
  eexists _, _. split; [reflexivity|]. split; [reflexivity|].
  split; [reflexivity|]. split; [reflexivity|].
  left. split; reflexivity.
Qed.

(** C1, amended.  The handler applies each step event as it arrives and
    does not check it against the step's current status.  When messages
    arrive in life-cycle order (a [TASK_STARTED] carries no new plan, a
    [STEP_STARTED] names a step that has not finished while no other step is
    active, a [STEP_COMPLETED] or [STEP_FAILED] names the active step),
    every step is still there after the message and its status has stayed
    the same or made one move of pending -> active -> completed or failed;
    none has reverted. *)
Theorem status_advances_in_order (st : state) (m : value) (j : nat)
  (s : object) :
  in_lifecycle_order st m ->
  steps st !! j = Some s ->
  exists s', steps (onmessage m st) !! j = Some s'
    /\ advances (status s) (status s')
    /\ ~ reverts (status s) (status s').
Proof.
  intros (HT & HS & HF) Hj.
  cut (exists s', next_steps m (steps st) !! j = Some s'
                  /\ advances (status s) (status s')).
  { intros (s' & ? & ?). exists s'. rewrite steps_onmessage.
    eauto using advances_not_reverts. }
  unfold type_is, addresses in *. unfold next_steps.
  destruct (is_str _ "TASK_STARTED").
  { specialize (HT eq_refl).
    destruct (get m "steps"); try discriminate HT;
      exists s; split; auto; now left. }
  destruct (is_str _ "STEP_STARTED").
  { exists (started (get m "index") j s).
    split; [rewrite list_lookup_imap, Hj; reflexivity|].
    rewrite status_started. specialize (HS eq_refl j s Hj).
    destruct (is_index j (get m "index")).
    - destruct HS as [-> | ->]; [right; left; auto|now left].
    - destruct (is_str (status s) "active") eqn:E; [|now left].
      apply is_str_eq in E. contradiction. }
  destruct (is_str _ "STEP_COMPLETED").
  { exists (finished m j s).
    split; [rewrite list_lookup_imap, Hj; reflexivity|].
    rewrite status_finished.
    destruct (is_index j (get m "index")) eqn:E; [|now left].
    rewrite (HF (or_introl eq_refl) j s Hj E). right; right; auto. }
  destruct (is_str _ "STEP_FAILED").
  { exists (failed m j s).
    split; [rewrite list_lookup_imap, Hj; reflexivity|].
    rewrite status_failed.
    destruct (is_index j (get m "index")) eqn:E; [|now left].
    rewrite (HF (or_intror eq_refl) j s Hj E). right; right; auto. }
  exists s. split; [exact Hj|now left].
Qed.

Lemma status_advances_in_order_witness :
  in_lifecycle_order two_step_state (STEP_COMPLETED 0 12)
  /\ exists s s',
       steps two_step_state !! 0%nat = Some s
       /\ steps (onmessage (STEP_COMPLETED 0 12) two_step_state) !! 0%nat
          = Some s'
       /\ advances (status s) (status s').
Proof.
  assert (H : in_lifecycle_order two_step_state (STEP_COMPLETED 0 12)).
  { split; [discriminate|]. split; [discriminate|].
    intros _ [|[|j]] s Hj Ha; try discriminate Hj;
      vm_compute in Ha; try discriminate Ha.
    injection Hj as <-. reflexivity. }
  split; [exact H|].
  destruct (status_advances_in_order two_step_state (STEP_COMPLETED 0 12)
              0%nat _ H eq_refl) as (s' & H1 & H2 & _).
  eexists _, s'. split; [reflexivity|]. split; [exact H1|exact H2].
Defined.

(** ** Progress *)

Lemma percent_exact_below_40 c n :
  (0 < n < 40)%nat -> (c <= n)%nat -> percent c n = round_percent c n.
Proof.
  intros Hn Hc.
  assert (H : percent_exact_upto 40 = true) by (vm_compute; reflexivity).
  unfold percent_exact_upto in H.
  rewrite forallb_forall in H. specialize (H n).
  rewrite forallb_forall in H. apply Z.eqb_eq. apply H.
  - apply in_seq. lia.
  - apply in_seq. lia.
Qed.

Lemma completed_le_length l : (completed l <= length l)%nat.
Proof. unfold completed. apply filter_length_le. Qed.

Lemma progress_exact_below_40 l :
  (length l < 40)%nat -> progress l = exact_progress l.
Proof.
  intros H. unfold progress, exact_progress.
  destruct (Nat.eqb_spec (length l) 0); [reflexivity|].
  apply percent_exact_below_40; [lia|apply completed_le_length].
Qed.

Lemma progress_empty : progress [] = 0.
Proof. reflexivity. Qed.

(** C4.  The displayed percentage is [Math.round((completed / total) * 100)]
    in binary64 arithmetic.  For an empty list it is 0, and for every list
    of fewer than 40 steps it is the exactly rounded percentage
    ([progress_exact_below_40]).  With 23 of 40 steps completed the exact
    percentage is 57.5, which rounds to 58; but 23/40 is not a binary64
    number, the quotient is the binary64 just below 0.575, its product with
    100 rounds to 8092405580431359 * 2^-47 = 57.49999999999999289..., and
    the handler's [Math.round] gives 57.  Multiplying before dividing,
    [Math.round((completed * 100) / total)], gives 58. *)
Theorem progress_23_of_40 :
  reachable forty_state
  /\ length (steps forty_state) = 40%nat
  /\ completed (steps forty_state) = 23%nat
  /\ Prim2SF (PrimFloat.mul (PrimFloat.div (num 23) (num 40)) (num 100))
     = S754_finite false 8092405580431359 (-47)
  /\ progress (steps forty_state) = 57
  /\ exact_progress (steps forty_state) = 58
  /\ Math_round (PrimFloat.div (PrimFloat.mul (num 23) (num 100)) (num 40))
     = 58.
Proof.
  split; [apply reachable_run|].
  vm_compute. repeat split.
Qed.

Lemma round_percent_mono c c' n :
  (c <= c')%nat -> round_percent c n <= round_percent c' n.
Proof.
  intros H. unfold round_percent.
  destruct n as [|n]; [now rewrite !Z.div_0_r|].
  apply Z.div_le_mono; lia.
Qed.

Lemma completed_imap_mono (f : nat -> object -> object) l :
  (forall j s, l !! j = Some s -> is_completed s = true ->
               is_completed (f j s) = true) ->
  (completed l <= completed (imap f l))%nat.
Proof.
  unfold completed. revert f.
  induction l as [|s r IH]; intros f H; simpl; [lia|].
  assert (Hr : (length (List.filter is_completed r)
                <= length (List.filter is_completed (imap (f ∘ S) r)))%nat).
  { apply IH. intros j t Hj. apply (H (S j) t Hj). }
  destruct (is_completed s) eqn:E.
  - rewrite (H 0%nat s eq_refl E). simpl. lia.
  - destruct (is_completed (f 0%nat s)); simpl; lia.
Qed.

Lemma completed_next_steps st m :
  keeps_completed st m ->
  (completed (steps st) <= completed (next_steps m (steps st)))%nat.
Proof.
  intros [HT HK]. unfold type_is, addresses in *. unfold next_steps.
  destruct (is_str _ "TASK_STARTED"); [congruence|].
  destruct (is_str _ "STEP_STARTED").
  { apply completed_imap_mono. intros j s Hj Hs.
    unfold is_completed in *. rewrite status_started.
    destruct (is_index j (get m "index")) eqn:E.
    - rewrite (HK (or_introl eq_refl) j s Hj E) in Hs. discriminate.
    - fold (status s) in Hs. apply is_str_eq in Hs. now rewrite Hs. }
  destruct (is_str _ "STEP_COMPLETED").
  { apply completed_imap_mono. intros j s Hj Hs.
    unfold is_completed in *. fold (status (finished m j s)).
    rewrite status_finished. destruct (is_index _ _); [reflexivity|exact Hs]. }
  destruct (is_str _ "STEP_FAILED"); [|lia].
  apply completed_imap_mono. intros j s Hj Hs.
  unfold is_completed in *. fold (status (failed m j s)).
  rewrite status_failed.
  destruct (is_index j (get m "index")) eqn:E; [|exact Hs].
  rewrite (HK (or_intror eq_refl) j s Hj E) in Hs. discriminate.
Qed.

(** C5, as the specification states it, fails: within one run, a
    [STEP_STARTED] that names the completed step makes it active again, and
    the progress falls from 100 to 0. *)
Lemma step_started_lowers_progress :
  reachable one_done_state
  /\ ~ type_is (STEP_STARTED 0) "TASK_STARTED"
  /\ completed (steps one_done_state) = 1%nat
  /\ completed (steps (onmessage (STEP_STARTED 0) one_done_state)) = 0%nat
  /\ length (steps (onmessage (STEP_STARTED 0) one_done_state))
     = length (steps one_done_state)
  /\ progress (steps one_done_state) = 100
  /\ progress (steps (onmessage (STEP_STARTED 0) one_done_state)) = 0.
Proof.
  split; [apply reachable_run|].
  split; [discriminate|].
  vm_compute. repeat split.
Qed.

(** C5, amended.  The handler does not refuse a step event that names a
    step already completed.  Within a single run, a message that is no
    [TASK_STARTED] and, when it is a [STEP_STARTED] or [STEP_FAILED], does
    not name a completed step, keeps the number of steps and never lowers
    the number of completed ones, so completed/total does not decrease; for
    plans of fewer than 40 steps the displayed percentage does not decrease
    either. *)
Theorem progress_monotone (st : state) (m : value) :
  keeps_completed st m ->
  length (steps (onmessage m st)) = length (steps st)
  /\ (completed (steps st) <= completed (steps (onmessage m st)))%nat
  /\ (Z.of_nat (completed (steps st))
        * Z.of_nat (length (steps (onmessage m st)))
      <= Z.of_nat (completed (steps (onmessage m st)))
           * Z.of_nat (length (steps st)))
  /\ ((length (steps st) < 40)%nat ->
      progress (steps st) <= progress (steps (onmessage m st))).
Proof.
  intros K. rewrite steps_onmessage.
  pose proof (completed_next_steps st m K) as Hc.
  pose proof (length_next_steps m (steps st) (proj1 K)) as Hl.
  split; [exact Hl|]. split; [exact Hc|]. split; [rewrite Hl; nia|].
  intros H40. rewrite !progress_exact_below_40 by lia.
  unfold exact_progress. rewrite Hl.
  destruct (Nat.eqb (length (steps st)) 0); [lia|].
  now apply round_percent_mono.
Qed.

Lemma progress_monotone_witness :
  keeps_completed two_step_state (STEP_COMPLETED 0 12)
  /\ completed (steps two_step_state) = 0%nat
  /\ completed (steps (onmessage (STEP_COMPLETED 0 12) two_step_state))
     = 1%nat
  /\ (completed (steps two_step_state)
      <= completed (steps (onmessage (STEP_COMPLETED 0 12) two_step_state)))%nat.
Proof.
  assert (K : keeps_completed two_step_state (STEP_COMPLETED 0 12)).
  { split; [discriminate|]. intros [H|H]; discriminate H. }
  split; [exact K|]. split; [reflexivity|]. split; [reflexivity|].
  exact (proj1 (proj2 (progress_monotone two_step_state
                         (STEP_COMPLETED 0 12) K))).
Defined.

(** ** Durations *)

Lemma duration_started v i s : duration_ms (started v i s) = duration_ms s.
Proof. unfold duration_ms, started. now rewrite prop_set_prop_ne. Qed.

Lemma duration_finished m i s :
  duration_ms (finished m i s)
  = if is_index i (get m "index") then get m "duration_ms" else duration_ms s.
Proof.
  unfold duration_ms, finished. destruct (is_index _ _); [|reflexivity].
  apply prop_set_prop_eq.
Qed.

Lemma duration_failed m i s :
  duration_ms (failed m i s)
  = if is_index i (get m "index") then get m "duration_ms" else duration_ms s.
Proof.
  unfold duration_ms, failed. destruct (is_index _ _); [|reflexivity].
  rewrite prop_set_prop_ne by discriminate. apply prop_set_prop_eq.
Qed.






(** ** Task state *)

Lemma taskState_onmessage m st :
  taskState (onmessage m st)
  = if is_str (get m "type") "TASK_STARTED" then "running"
    else if is_str (get m "type") "TASK_COMPLETED" then "completed"
    else taskState st.
Proof.
  unfold onmessage.
  destruct m; try reflexivity.
  destruct (prop "type" o) as [| | | |t| | |] eqn:T; simpl; rewrite T; simpl;
    try reflexivity.
  repeat match goal with
         | |- context [String.eqb t ?lit] =>
             destruct (String.eqb_spec t lit); [subst t|]
         end; try discriminate; simpl;
    try reflexivity;
    destruct (prop "steps" o) as [| |[|]|n|x|l|o'|x]; try reflexivity;
    simpl;
    repeat match goal with
           | |- context [mapM enrich ?l] => destruct (mapM enrich l)
           | |- context [if ?b then _ else _] => destruct b
           end; reflexivity.
Qed.

Lemma taskState_handleSubmit st :
  taskState (handleSubmit st) = taskState st
  \/ taskState (handleSubmit st) = "running".
Proof.
  unfold handleSubmit.
  destruct (String.eqb _ _); [now left|].
  destruct (wsRef st) as [ws|]; [|now left].
  destruct (is_open _); [now right|now left].
Qed.

Lemma taskState_handleCredentialsSubmit st :
  taskState (handleCredentialsSubmit st) = taskState st.
Proof.
  unfold handleCredentialsSubmit.
  destruct (wsRef st) as [ws|]; [|reflexivity].
  destruct (is_open _); reflexivity.
Qed.

Lemma taskState_react e st :
  taskState (react e st) = taskState st
  \/ (taskState (react e st) = "running" /\ starts_run e)
  \/ (taskState (react e st) = "completed" /\ completes_run e).
Proof.
  destruct e; simpl; try (now left).
  - unfold set_ready. destruct (wsRef st); now left.
  - unfold set_ready. destruct (wsRef st); now left.
  - rewrite taskState_onmessage.
    destruct (is_str _ "TASK_STARTED") eqn:S.
    { right; left. split; [reflexivity|]. right. now exists m. }
    destruct (is_str _ "TASK_COMPLETED") eqn:C; [|now left].
    right; right. split; [reflexivity|]. now exists m.
  - destruct (String.eqb _ _); [now left|].
    destruct (taskState_handleSubmit st) as [->| ->]; [now left|].
    right; left. split; [reflexivity|now left].
  - destruct (field_shown _ _); now left.
  - destruct (field_shown _ _); now left.
  - destruct (field_shown _ _); now left.
  - destruct (modal_open _); [|now left].
    left. apply taskState_handleCredentialsSubmit.
Qed.

Lemma taskState_reachable st :
  reachable st ->
  taskState st = "idle" \/ taskState st = "running"
  \/ taskState st = "completed".
Proof.
  induction 1 as [|st e R IH _]; [now left|].
  destruct (taskState_react e st) as [->|[[-> _]|[-> _]]]; auto.
Qed.

(** C3, as the specification states it, fails: the observer goes from idle
    straight to running when a task is launched, and a completed task is
    left for running both by the Launch button, which is enabled again once
    the task has completed, and by the next [TASK_STARTED] message. *)
Lemma completed_task_restarts :
  reachable ready_state
  /\ taskState ready_state = "idle"
  /\ taskState (react ClickLaunch ready_state) = "running"
  /\ reachable completed_state
  /\ taskState completed_state = "completed"
  /\ taskState (react ClickLaunch completed_state) = "running"
  /\ taskState (react (Message (TASK_STARTED demo_plan)) completed_state)
     = "running".
Proof.
  split; [apply reachable_run|]. split; [reflexivity|].
  split; [reflexivity|]. split; [apply reachable_run|].
  repeat split.
Qed.

(** C3, amended.  The observer's task state is one of idle, running and
    completed; planning and failed never occur in it.  It starts idle.  An
    event either leaves it as it is, or sets it to running (a
    [TASK_STARTED] message or an accepted Launch click, from any state, a
    completed task included: that begins the next run), or sets it to
    completed (a [TASK_COMPLETED] message).  Once it has left idle it never
    returns to idle. *)
Theorem task_state_transitions (st : state) (e : event) :
  reachable st ->
  (taskState st = "idle" \/ taskState st = "running"
   \/ taskState st = "completed")
  /\ (taskState (react e st) = taskState st
      \/ (taskState (react e st) = "running" /\ starts_run e)
      \/ (taskState (react e st) = "completed" /\ completes_run e))
  /\ (taskState st <> "idle" -> taskState (react e st) <> "idle").
Proof.
  intros R. split; [now apply taskState_reachable|].
  split; [apply taskState_react|].
  intros H. destruct (taskState_react e st) as [->|[[-> _]|[-> _]]];
    [exact H|discriminate|discriminate].
Qed.

Lemma task_state_transitions_witness :
  reachable completed_state
  /\ (taskState (react (Message TASK_COMPLETED) running_state)
      = taskState running_state
      \/ (taskState (react (Message TASK_COMPLETED) running_state) = "running"
          /\ starts_run (Message TASK_COMPLETED))
      \/ (taskState (react (Message TASK_COMPLETED) running_state)
          = "completed"
          /\ completes_run (Message TASK_COMPLETED)))
  /\ taskState (react ClickLaunch completed_state) <> "idle".
Proof.
  split; [apply reachable_run|].
  split.
  - exact (proj1 (proj2 (task_state_transitions running_state
                           (Message TASK_COMPLETED)
                           (reachable_run _)))).
  - apply (task_state_transitions completed_state ClickLaunch
             (reachable_run _)).
    discriminate.
Defined.

(** * Further properties of the handlers *)

(** ** Step events, one kind at a time *)

Lemma next_steps_started m l :
  type_is m "STEP_STARTED" ->
  next_steps m l = imap (started (get m "index")) l.
Proof.
  unfold type_is. intros H%is_str_eq. unfold next_steps. now rewrite H.
Qed.

Lemma next_steps_completed m l :
  type_is m "STEP_COMPLETED" -> next_steps m l = imap (finished m) l.
Proof.
  unfold type_is. intros H%is_str_eq. unfold next_steps. now rewrite H.
Qed.

Lemma next_steps_failed m l :
  type_is m "STEP_FAILED" -> next_steps m l = imap (failed m) l.
Proof.
  unfold type_is. intros H%is_str_eq. unfold next_steps. now rewrite H.
Qed.

Lemma activeIndex_onmessage m st :
  activeIndex (onmessage m st)
  = let type := get m "type" in
    if is_str type "TASK_STARTED" then
      match get m "steps" with
      | VArr plan =>
          match mapM enrich plan with
          | Some _ => VNull
          | None => activeIndex st
          end
      | _ => activeIndex st
      end
    else if is_str type "STEP_STARTED" then get m "index"
    else if is_str type "STEP_COMPLETED" then VNull
    else if is_str type "STEP_FAILED" then VNull
    else activeIndex st.
Proof.
  unfold onmessage.
  destruct m; try reflexivity. cbv zeta.
  repeat match goal with
         | |- context [if is_str ?v ?t then _ else _] =>
             destruct (is_str v t)
         | |- context [if truthy ?v then _ else _] =>
             destruct v eqn:?; simpl
         | |- context [mapM enrich ?l] => destruct (mapM enrich l)
         | |- context [if ?b then _ else _] => destruct b
         end; reflexivity.
Qed.

Lemma not_addressed m j : ~ addresses m j -> is_index j (get m "index") = false.
Proof. unfold addresses. now destruct (is_index _ _). Qed.

(** X1. A [STEP_COMPLETED] or [STEP_FAILED] message changes no step but the
    one its [index] names, and clears [activeIndex].  When the index names
    no position of the array (it is missing, not a number, negative or past
    the end), the steps array stays exactly as it was. *)
Theorem step_result_leaves_others (st : state) (m : value) :
  type_is m "STEP_COMPLETED" \/ type_is m "STEP_FAILED" ->
  (forall j, ~ addresses m j ->
             steps (onmessage m st) !! j = steps st !! j)
  /\ ((forall j, (j < length (steps st))%nat -> ~ addresses m j) ->
      steps (onmessage m st) = steps st)
  /\ activeIndex (onmessage m st) = VNull.
Proof.
  intros H.
  assert (P : forall j, ~ addresses m j ->
                        next_steps m (steps st) !! j = steps st !! j).
  { intros j Hj%not_addressed.
    destruct H as [H|H];
      [rewrite next_steps_completed by exact H
      |rewrite next_steps_failed by exact H];
      rewrite list_lookup_imap; destruct (steps st !! j) as [s|]; simpl;
      try reflexivity; unfold finished, failed; now rewrite Hj. }
  rewrite steps_onmessage. split; [exact P|]. split.
  - intros Hall. apply list_eq. intros j.
    destruct (Nat.lt_ge_cases j (length (steps st))) as [Hlt|Hge].
    + apply P, Hall, Hlt.
    + rewrite !lookup_ge_None_2; [reflexivity|exact Hge|].
      rewrite length_next_steps; [exact Hge|].
      unfold type_is in *. intros T%is_str_eq.
      destruct H as [H|H]; apply is_str_eq in H; congruence.
  - rewrite activeIndex_onmessage. unfold type_is in H. cbv zeta.
    destruct H as [H|H]; apply is_str_eq in H; rewrite H; reflexivity.
Qed.

Lemma step_result_leaves_others_witness :
  (type_is (STEP_COMPLETED 7 12) "STEP_COMPLETED"
   \/ type_is (STEP_COMPLETED 7 12) "STEP_FAILED")
  /\ steps (onmessage (STEP_COMPLETED 7 12) two_step_state)
     = steps two_step_state.
Proof.
  assert (H : type_is (STEP_COMPLETED 7 12) "STEP_COMPLETED"
              \/ type_is (STEP_COMPLETED 7 12) "STEP_FAILED")
    by (left; reflexivity).
  split; [exact H|].
  apply (step_result_leaves_others two_step_state (STEP_COMPLETED 7 12) H).
  intros [|[|j]] Hj; [discriminate|discriminate|simpl in Hj; lia].
Defined.

(** X2. A [STEP_COMPLETED] message whose [index] names a step stores, on
    that step, the status completed and the message's [duration_ms] as
    received, and keeps every other property of the step (action,
    parameters, description). *)
Theorem step_completed_records (st : state) (m : value) (j : nat)
  (s : object) :
  type_is m "STEP_COMPLETED" ->
  steps st !! j = Some s ->
  addresses m j ->
  exists s', steps (onmessage m st) !! j = Some s'
    /\ status s' = VStr "completed"
    /\ duration_ms s' = get m "duration_ms"
    /\ forall k, k <> "status" -> k <> "duration_ms" -> prop k s' = prop k s.
Proof.
  intros T Hj A. unfold addresses in A.
  exists (finished m j s). rewrite steps_onmessage, next_steps_completed by easy.
  split; [rewrite list_lookup_imap, Hj; reflexivity|].
  rewrite status_finished, duration_finished, A.
  repeat split. intros k H1 H2. unfold finished. rewrite A.
  now rewrite !prop_set_prop_ne.
Qed.

Lemma step_completed_records_witness :
  type_is (STEP_COMPLETED 0 12) "STEP_COMPLETED"
  /\ addresses (STEP_COMPLETED 0 12) 0
  /\ exists s s',
       steps two_step_state !! 0%nat = Some s
       /\ steps (onmessage (STEP_COMPLETED 0 12) two_step_state) !! 0%nat
          = Some s'
       /\ status s' = VStr "completed"
       /\ duration_ms s' = VNum 12.
Proof.
  split; [reflexivity|]. split; [reflexivity|].
  destruct (step_completed_records two_step_state (STEP_COMPLETED 0 12)
              0%nat _ eq_refl eq_refl eq_refl) as (s' & H1 & H2 & H3 & _).
  eexists _, s'. split; [reflexivity|]. split; [exact H1|].
  split; [exact H2|exact H3].
Defined.

(** X3. A [STEP_FAILED] message whose [index] names a step stores, on that
    step, the status failed, the message's [duration_ms] and its [error],
    and keeps every other property of the step. *)
Theorem step_failed_records (st : state) (m : value) (j : nat) (s : object) :
  type_is m "STEP_FAILED" ->
  steps st !! j = Some s ->
  addresses m j ->
  exists s', steps (onmessage m st) !! j = Some s'
    /\ status s' = VStr "failed"
    /\ duration_ms s' = get m "duration_ms"
    /\ prop "error" s' = get m "error"
    /\ forall k, k <> "status" -> k <> "duration_ms" -> k <> "error" ->
                 prop k s' = prop k s.
Proof.
  intros T Hj A. unfold addresses in A.
  exists (failed m j s). rewrite steps_onmessage, next_steps_failed by easy.
  split; [rewrite list_lookup_imap, Hj; reflexivity|].
  rewrite status_failed, duration_failed, A.
  split; [reflexivity|]. split; [reflexivity|].
  unfold failed. rewrite A. split; [apply prop_set_prop_eq|].
  intros k H1 H2 H3. now rewrite !prop_set_prop_ne.
Qed.

Lemma step_failed_records_witness :
  type_is (STEP_FAILED 0 30 "selector not found") "STEP_FAILED"
  /\ addresses (STEP_FAILED 0 30 "selector not found") 0
  /\ exists s s',
       steps two_step_state !! 0%nat = Some s
       /\ steps (onmessage (STEP_FAILED 0 30 "selector not found")
                   two_step_state) !! 0%nat = Some s'
       /\ status s' = VStr "failed"
       /\ duration_ms s' = VNum 30
       /\ prop "error" s' = VStr "selector not found".
Proof.
  split; [reflexivity|]. split; [reflexivity|].
  destruct (step_failed_records two_step_state
              (STEP_FAILED 0 30 "selector not found")
              0%nat _ eq_refl eq_refl eq_refl) as (s' & H1 & H2 & H3 & H4 & _).
  eexists _, s'. split; [reflexivity|]. split; [exact H1|].
  split; [exact H2|]. split; [exact H3|exact H4].
Defined.

(** ** Starting a step *)

Lemma unique_active_started v l : unique_active (imap (started v) l).
Proof.
  intros i j s t Hi Hj Hs Ht.
  apply list_lookup_imap_Some in Hi as (s0 & _ & ->).
  apply list_lookup_imap_Some in Hj as (t0 & _ & ->).
  rewrite is_active_started in Hs, Ht. eapply is_index_inj; eassumption.
Qed.

Lemma active_count_pos l j s :
  l !! j = Some s -> is_active s = true -> (1 <= active_count l)%nat.
Proof.
  intros Hj Hs. unfold active_count.
  assert (Hin : List.In s (List.filter is_active l)).
  { apply filter_In. split; [|exact Hs].
    apply list_elem_of_In, list_elem_of_lookup. eauto. }
  destruct (List.filter is_active l); [destruct Hin|simpl; lia].
Qed.

Lemma active_count_zero l :
  (forall j s, l !! j = Some s -> is_active s = false) ->
  active_count l = 0%nat.
Proof.
  intros H. unfold active_count.
  destruct (List.filter is_active l) as [|t r] eqn:F; [reflexivity|].
  assert (Ht : List.In t (List.filter is_active l)) by (rewrite F; now left).
  apply filter_In in Ht as [Hin Ht].
  apply list_elem_of_In, list_elem_of_lookup in Hin as [j Hj].
  rewrite (H j t Hj) in Ht. discriminate.
Qed.

(** X4. A [STEP_STARTED] message whose [index] names a step leaves exactly
    one active step, the named one, whatever the statuses were before, and
    sets [activeIndex] to that index. *)
Theorem step_started_one_active (st : state) (m : value) (j : nat)
  (s : object) :
  type_is m "STEP_STARTED" ->
  steps st !! j = Some s ->
  addresses m j ->
  active_count (steps (onmessage m st)) = 1%nat
  /\ (exists s', steps (onmessage m st) !! j = Some s'
        /\ status s' = VStr "active")
  /\ activeIndex (onmessage m st) = get m "index".
Proof.
  intros T Hj A. unfold addresses in A.
  assert (Hs : steps (onmessage m st) !! j
               = Some (started (get m "index") j s)).
  { rewrite steps_onmessage, next_steps_started by exact T.
    rewrite list_lookup_imap, Hj. reflexivity. }
  assert (Ha : status (started (get m "index") j s) = VStr "active")
    by (rewrite status_started, A; reflexivity).
  split.
  - apply Nat.le_antisymm.
    + apply unique_active_count.
      rewrite steps_onmessage, next_steps_started by exact T.
      apply unique_active_started.
    + eapply active_count_pos; [exact Hs|]. unfold is_active. now rewrite Ha.
  - split; [eauto|].
    rewrite activeIndex_onmessage. cbv zeta. unfold type_is in T.
    apply is_str_eq in T. rewrite T. reflexivity.
Qed.

Lemma step_started_one_active_witness :
  type_is (STEP_STARTED 1) "STEP_STARTED"
  /\ addresses (STEP_STARTED 1) 1
  /\ active_count (steps (onmessage (STEP_STARTED 1) two_step_state)) = 1%nat
  /\ activeIndex (onmessage (STEP_STARTED 1) two_step_state) = VNum 1.
Proof.
  split; [reflexivity|]. split; [reflexivity|].
  destruct (step_started_one_active two_step_state (STEP_STARTED 1)
              1%nat _ eq_refl eq_refl eq_refl) as (H1 & _ & H2).
  exact (conj H1 H2).
Defined.

(** X5. A [STEP_STARTED] message whose [index] names no position of the
    array (missing, not a number, negative or past the end) leaves no step
    active: the step that was active goes back to pending. *)
Theorem step_started_out_of_range (st : state) (m : value) :
  type_is m "STEP_STARTED" ->
  (forall j, (j < length (steps st))%nat -> ~ addresses m j) ->
  active_count (steps (onmessage m st)) = 0%nat
  /\ forall j s, steps st !! j = Some s -> is_active s = true ->
       exists s', steps (onmessage m st) !! j = Some s'
                  /\ status s' = VStr "pending".
Proof.
  intros T Hall. rewrite steps_onmessage, next_steps_started by exact T.
  split.
  - apply active_count_zero. intros j s Hj.
    apply list_lookup_imap_Some in Hj as (s0 & Hj & ->).
    rewrite is_active_started. apply not_addressed, Hall.
    eapply lookup_lt_Some, Hj.
  - intros j s Hj Hs. exists (started (get m "index") j s).
    split; [rewrite list_lookup_imap, Hj; reflexivity|].
    rewrite status_started.
    rewrite (not_addressed m j) by (eapply Hall, lookup_lt_Some, Hj).
    unfold is_active in Hs. now rewrite Hs.
Qed.

Lemma step_started_out_of_range_witness :
  type_is (STEP_STARTED 5) "STEP_STARTED"
  /\ active_count (steps two_step_state) = 1%nat
  /\ active_count (steps (onmessage (STEP_STARTED 5) two_step_state)) = 0%nat.
Proof.
  split; [reflexivity|]. split; [reflexivity|].
  apply (step_started_out_of_range two_step_state (STEP_STARTED 5) eq_refl).
  intros [|[|j]] Hj; [discriminate|discriminate|simpl in Hj; lia].
Defined.

(** X6. A [STEP_STARTED] message changes nothing of a step but its status:
    every other property is kept, and a step that is neither named by the
    message nor active keeps its status too. *)
Theorem step_started_keeps_rest (st : state) (m : value) (j : nat)
  (s : object) :
  type_is m "STEP_STARTED" ->
  steps st !! j = Some s ->
  exists s', steps (onmessage m st) !! j = Some s'
    /\ (forall k, k <> "status" -> prop k s' = prop k s)
    /\ (~ addresses m j -> is_active s = false -> status s' = status s).
Proof.
  intros T Hj. exists (started (get m "index") j s).
  rewrite steps_onmessage, next_steps_started by exact T.
  split; [rewrite list_lookup_imap, Hj; reflexivity|].
  split.
  - intros k Hk. unfold started. now rewrite prop_set_prop_ne.
  - intros A%not_addressed Hs. rewrite status_started, A.
    unfold is_active in Hs. now rewrite Hs.
Qed.

Lemma step_started_keeps_rest_witness :
  type_is (STEP_STARTED 0) "STEP_STARTED"
  /\ exists s s',
       steps two_step_state !! 1%nat = Some s
       /\ steps (onmessage (STEP_STARTED 0) two_step_state) !! 1%nat = Some s'
       /\ prop "description" s' = prop "description" s.
Proof.
  split; [reflexivity|].
  destruct (step_started_keeps_rest two_step_state (STEP_STARTED 0)
              1%nat _ eq_refl eq_refl) as (s' & H1 & H2 & _).
  eexists _, s'. split; [reflexivity|]. split; [exact H1|].
  apply H2. discriminate.
Defined.

(** ** The highlighted step *)








(** ** Statuses and labels *)

Lemma status_known_next m l :
  (forall j s, l !! j = Some s -> status_known s) ->
  forall j s, next_steps m l !! j = Some s -> status_known s.
Proof.
  intros K j s.
  destruct (is_str (get m "type") "TASK_STARTED") eqn:T.
  { destruct (task_started_steps m l T) as [->|E]; [apply K|].
    intros Hj. destruct (E j s Hj) as (step & Hstep).
    exists "pending". rewrite (enrich_status _ _ Hstep). simpl. auto. }
  unfold next_steps, status_known, step_statuses. rewrite T.
  destruct (is_str _ "STEP_STARTED").
  { intros Hj. apply list_lookup_imap_Some in Hj as (s0 & Hj & ->).
    rewrite status_started. destruct (is_index _ _).
    - exists "active". simpl. auto.
    - destruct (is_str _ "active"); [|eapply K, Hj].
      exists "pending". simpl. auto. }
  destruct (is_str _ "STEP_COMPLETED").
  { intros Hj. apply list_lookup_imap_Some in Hj as (s0 & Hj & ->).
    rewrite status_finished. destruct (is_index _ _); [|eapply K, Hj].
    exists "completed". simpl. auto. }
  destruct (is_str _ "STEP_FAILED"); [|apply K].
  intros Hj. apply list_lookup_imap_Some in Hj as (s0 & Hj & ->).
  rewrite status_failed. destruct (is_index _ _); [|eapply K, Hj].
  exists "failed". simpl. auto 6.
Qed.

Lemma status_known_reachable st j s :
  reachable st -> steps st !! j = Some s -> status_known s.
Proof.
  intros R. revert j s. induction R as [|st e R IH _].
  - intros j s Hj. destruct j; discriminate.
  - rewrite steps_react. destruct e; try exact IH.
    now apply status_known_next.
Qed.

(** X8. In every reachable state each step's status is one of pending,
    active, completed and failed, so the badge and the border style
    [StepItem] looks up for it are always defined: Pending, Active, Done or
    Failed, never a missing or inherited entry. *)
Theorem step_label_defined (st : state) (j : nat) (s : object) :
  reachable st ->
  steps st !! j = Some s ->
  exists t label style,
    In t step_statuses
    /\ status s = VStr t
    /\ own statusLabel t = Some label
    /\ own statusStyles t = Some style
    /\ stepLabel s = Own label
    /\ stepStyle s = Own style.
Proof.
  intros R Hj. destruct (status_known_reachable st j s R Hj) as (t & Ht & Hs).
  unfold stepLabel, stepStyle, stepStatus. fold (status s). rewrite Hs.
  unfold step_statuses in Ht. simpl in Ht.
  destruct Ht as [<-|[<-|[<-|[<-|[]]]]]; eexists _, _, _; simpl;
    repeat split; auto 6.
Qed.

Lemma step_label_defined_witness :
  reachable failed_run
  /\ exists s, steps failed_run !! 1%nat = Some s
       /\ stepLabel s = Own "Failed"
       /\ stepStyle s = Own "border-err text-err".
Proof.
  split; [apply reachable_run|].
  destruct (step_label_defined failed_run 1%nat _ (reachable_run _) eq_refl)
    as (t & label & style & _ & Hs & Hl & Hy & H1 & H2).
  eexists. split; [reflexivity|].
  injection Hs as <-. injection Hl as <-. injection Hy as <-.
  exact (conj H1 H2).
Defined.

(** ** Descriptions *)

Lemma decimal_not_action n : String.eqb (decimal n) "action" = false.
Proof.
  unfold decimal.
  destruct (Z.to_int n) as [d|d]; [|reflexivity].
  destruct d; reflexivity.
Qed.

Lemma prop_action_indexed {A} (f : A -> value) (l : list A) k0 :
  prop "action"
    (imap (fun i x => (index_key (k0 + i), f x)) l) = VUndefined.
Proof.
  revert k0. induction l as [|x r IH]; intros k0; [reflexivity|].
  simpl. unfold index_key at 1. rewrite decimal_not_action.
  rewrite <- (IH (S k0)). f_equal. apply imap_ext. intros i y _. simpl.
  now rewrite Nat.add_succ_r.
Qed.

Lemma prop_action_spread step :
  (forall o, step <> VObj o) -> prop "action" (spread step) = VUndefined.
Proof.
  intros H. destruct step as [| | | |t|l|o|]; try reflexivity.
  - exact (prop_action_indexed (fun c => VStr c)
             (code_units (list_ascii_of_string t)) 0).
  - exact (prop_action_indexed (fun x => x) l 0).
  - now destruct (H o).
Qed.

Lemma buildDescription_reads s s' :
  (forall k, In k ["action"; "url"; "selector"; "text"; "amount"; "ms"] ->
             prop k s' = prop k s) ->
  buildDescription (VObj s') = buildDescription (VObj s).
Proof.
  intros H. rewrite !buildDescription_object.
  rewrite !H by (simpl; auto 8). reflexivity.
Qed.

Lemma buildDescription_no_action o :
  prop "action" o = VUndefined -> buildDescription (VObj o) = Some VUndefined.
Proof. intros H. rewrite buildDescription_object, H. reflexivity. Qed.

Lemma description_current_enrich step s :
  enrich step = Some s -> description_current s.
Proof.
  intros E. pose proof (enrich_description _ _ E) as D.
  assert (A : prop "action" s = prop "action" (spread step))
    by (apply (enrich_other _ _ _ E); discriminate).
  unfold description_current. rewrite A.
  destruct (classic_object step) as [[o ->]|N].
  - assert (R : buildDescription (VObj s) = buildDescription (VObj o)).
    { apply buildDescription_reads. intros k Hk.
      apply (enrich_other _ _ _ E); intros ->; simpl in Hk;
        intuition discriminate. }
    simpl. split.
    + intros _. congruence.
    + intros U. left. rewrite (buildDescription_no_action o U) in D.
      congruence.
  - rewrite (prop_action_spread step N). split; [congruence|]. intros _.
    destruct (buildDescription_primitive step N) as [P|P];
      rewrite P in D; injection D as <-; auto.
Qed.

Lemma description_current_keeps s s' :
  (forall k, k <> "status" -> k <> "duration_ms" -> k <> "error" ->
             prop k s' = prop k s) ->
  description_current s -> description_current s'.
Proof.
  intros H. unfold description_current.
  rewrite (buildDescription_reads s s'), (H "description"), (H "action") by
    (try discriminate; intros k Hk; apply H; intros ->; simpl in Hk;
     intuition discriminate).
  trivial.
Qed.

Lemma description_current_next m l :
  (forall j s, l !! j = Some s -> description_current s) ->
  forall j s, next_steps m l !! j = Some s -> description_current s.
Proof.
  intros K j s.
  destruct (is_str (get m "type") "TASK_STARTED") eqn:T.
  { destruct (task_started_steps m l T) as [->|E]; [apply K|].
    intros Hj. destruct (E j s Hj) as (step & Hstep).
    eapply description_current_enrich, Hstep. }
  unfold next_steps. rewrite T.
  destruct (is_str _ "STEP_STARTED").
  { intros Hj. apply list_lookup_imap_Some in Hj as (s0 & Hj & ->).
    apply (description_current_keeps s0); [|eapply K, Hj].
    intros k H1 _ _. unfold started. now rewrite prop_set_prop_ne. }
  destruct (is_str _ "STEP_COMPLETED").
  { intros Hj. apply list_lookup_imap_Some in Hj as (s0 & Hj & ->).
    apply (description_current_keeps s0); [|eapply K, Hj].
    intros k H1 H2 _. unfold finished. destruct (is_index _ _); [|reflexivity].
    now rewrite !prop_set_prop_ne. }
  destruct (is_str _ "STEP_FAILED"); [|apply K].
  intros Hj. apply list_lookup_imap_Some in Hj as (s0 & Hj & ->).
  apply (description_current_keeps s0); [|eapply K, Hj].
  intros k H1 H2 H3. unfold failed. destruct (is_index _ _); [|reflexivity].
  now rewrite !prop_set_prop_ne.
Qed.

(** X9. In every reachable state a stored step that has an action carries
    exactly the description [buildDescription] derives from the step's own
    action and parameters as they are now: step events never leave a stale
    or missing description.  A stored step without an action has no
    description, or the empty one of a plan entry that was null or
    blank. *)
Theorem description_stays_current (st : state) (j : nat) (s : object) :
  reachable st ->
  steps st !! j = Some s ->
  (prop "action" s <> VUndefined ->
   buildDescription (VObj s) = Some (prop "description" s))
  /\ (prop "action" s = VUndefined ->
      prop "description" s = VUndefined \/ prop "description" s = VStr "").
Proof.
  intros R. revert j s. induction R as [|st e R IH _].
  - intros j s Hj. destruct j; discriminate.
  - rewrite steps_react. destruct e; try exact IH.
    now apply description_current_next.
Qed.

Lemma description_stays_current_witness :
  reachable failed_run
  /\ exists s, steps failed_run !! 1%nat = Some s
       /\ prop "action" s = VStr "click"
       /\ prop "description" s = VStr "Click #login"
       /\ buildDescription (VObj s) = Some (prop "description" s).
Proof.
  split; [apply reachable_run|].
  eexists. split; [reflexivity|]. split; [reflexivity|].
  split; [reflexivity|].
  apply (description_stays_current failed_run 1%nat _ (reachable_run _)
           eq_refl).
  discriminate.
Defined.

(** ** Logs *)

Ltac message_kinds t :=
  repeat match goal with
         | |- context [String.eqb t ?lit] =>
             destruct (String.eqb_spec t lit); [subst t|]
         end.

Ltac settle_branches :=
  repeat match goal with
         | |- context [if ?b then _ else _] => destruct b
         | |- context [match ?v with VArr _ => _ | _ => _ end] => destruct v
         | |- context [mapM enrich ?l] => destruct (mapM enrich l)
         end.

Lemma logs_onmessage m st :
  logs (onmessage m st)
  = if is_str (get m "type") "LOG" then (last19 (logs st) ++ [m])%list
    else logs st.
Proof.
  unfold onmessage.
  destruct m; try reflexivity.
  destruct (prop "type" o) as [| | | |t| | |] eqn:T; simpl; rewrite T; simpl;
    try reflexivity.
  message_kinds t; try discriminate; simpl; try reflexivity;
    settle_branches; reflexivity.
Qed.

Lemma logs_handleSubmit st : logs (handleSubmit st) = logs st.
Proof.
  unfold handleSubmit.
  destruct (String.eqb _ _); [reflexivity|].
  destruct (wsRef st) as [ws|]; [|reflexivity].
  destruct (is_open _); reflexivity.
Qed.

Lemma logs_handleCredentialsSubmit st :
  logs (handleCredentialsSubmit st) = logs st.
Proof.
  unfold handleCredentialsSubmit.
  destruct (wsRef st) as [ws|]; [|reflexivity].
  destruct (is_open _); reflexivity.
Qed.

Lemma logs_react e st :
  logs (react e st)
  = match e with
    | Message m => logs (onmessage m st)
    | _ => logs st
    end.
Proof.
  destruct e; simpl; try reflexivity.
  - unfold set_ready. destruct (wsRef st); reflexivity.
  - unfold set_ready. destruct (wsRef st); reflexivity.
  - destruct (String.eqb _ _); [reflexivity|apply logs_handleSubmit].
  - destruct (field_shown _ _); reflexivity.
  - destruct (field_shown _ _); reflexivity.
  - destruct (field_shown _ _); reflexivity.
  - destruct (modal_open _); [apply logs_handleCredentialsSubmit|reflexivity].
Qed.

Lemma length_last19 l : (length (last19 l) <= 19)%nat.
Proof. unfold last19. rewrite length_drop. lia. Qed.

(** X10. The observer never holds more than twenty log entries: after any
    sequence of events from the initial state, however many [LOG] messages
    it contains, [logs] has at most 20 elements. *)
Theorem logs_bounded (es : list event) :
  (length (logs (run es initial)) <= 20)%nat.
Proof.
  assert (G : forall st, (length (logs st) <= 20)%nat ->
                         (length (logs (run es st)) <= 20)%nat).
  { induction es as [|e es IH]; intros st H; simpl; [exact H|].
    apply IH. rewrite logs_react. destruct e; try exact H.
    rewrite logs_onmessage. destruct (is_str _ _); [|exact H].
    rewrite length_app. pose proof (length_last19 (logs st)). simpl. lia. }
  apply G. simpl. lia.
Qed.

(** X11. After a [LOG] message the slice [logs.slice(-5)] that the browser
    view takes of the stored log ends with that message, preceded by the
    four most recent earlier entries (fewer when there are fewer): the slice
    has at most five entries, the newest last. *)
Theorem latest_log_visible (st : state) (m : value) :
  type_is m "LOG" ->
  visibleLogs (logs (onmessage m st))
  = (drop (length (logs st) - 4) (logs st) ++ [m])%list
  /\ (length (visibleLogs (logs (onmessage m st))) <= 5)%nat
  /\ last (visibleLogs (logs (onmessage m st))) = Some m.
Proof.
  unfold type_is. intros T. rewrite logs_onmessage, T.
  assert (E : visibleLogs (last19 (logs st) ++ [m])
              = (drop (length (logs st) - 4) (logs st) ++ [m])%list).
  { unfold visibleLogs, last19. rewrite length_app, length_drop. simpl.
    destruct (Nat.ltb_spec 0
                (length (logs st) - (length (logs st) - 19) + 1)); [|lia].
    rewrite drop_app_le by (rewrite length_drop; lia).
    rewrite drop_drop. f_equal. f_equal. lia. }
  rewrite E. split; [reflexivity|]. split.
  - rewrite length_app, length_drop. simpl. lia.
  - apply last_snoc.
Qed.

Lemma latest_log_visible_witness :
  type_is (VObj [("type", VStr "LOG"); ("level", VStr "warn")]) "LOG"
  /\ length (visibleLogs
               (logs (onmessage
                        (VObj [("type", VStr "LOG"); ("level", VStr "warn")])
                        chatty_state))) = 5%nat
  /\ last (visibleLogs
             (logs (onmessage
                      (VObj [("type", VStr "LOG"); ("level", VStr "warn")])
                      chatty_state)))
     = Some (VObj [("type", VStr "LOG"); ("level", VStr "warn")]).
Proof.
  split; [reflexivity|]. split; [reflexivity|].
  apply (latest_log_visible chatty_state
           (VObj [("type", VStr "LOG"); ("level", VStr "warn")]) eq_refl).
Defined.

(** ** What a message cannot touch *)

Lemma onmessage_frame m st :
  goal (onmessage m st) = goal st
  /\ credentialsData (onmessage m st) = credentialsData st
  /\ connection (onmessage m st) = connection st
  /\ wsRef (onmessage m st) = wsRef st.
Proof.
  unfold onmessage. destruct m; try (repeat split; reflexivity);
    cbv zeta; settle_branches; repeat split; reflexivity.
Qed.

(** X12. The [onmessage] handler itself, whatever the kind and content of
    the message, updates neither the goal, nor the credentials typed so far,
    nor the connection cell, and it neither sends on the socket nor closes
    it: at its return these are what they were at its call. *)
Theorem message_leaves_user_input (m : value) (st : state) :
  goal (onmessage m st) = goal st
  /\ credentialsData (onmessage m st) = credentialsData st
  /\ connection (onmessage m st) = connection st
  /\ outbox (onmessage m st) = outbox st
  /\ socket_open (onmessage m st) = socket_open st.
Proof.
  destruct (onmessage_frame m st) as (G & C & N & W).
  unfold outbox, socket_open. rewrite W. auto.
Qed.

(** X13. A [TASK_STARTED] message without a usable plan ([steps] missing,
    null, or anything that is not an array) only sets the task state to
    running: the steps on display, the active index and everything else
    stay as they were. *)
Theorem task_started_without_plan (m : value) (st : state) :
  type_is m "TASK_STARTED" ->
  (forall plan, get m "steps" <> VArr plan) ->
  onmessage m st = setTaskState "running" st.
Proof.
  unfold type_is. intros T N. unfold onmessage.
  destruct m; try discriminate T. rewrite T.
  destruct (get (VObj o) "steps") eqn:E; try (destruct (truthy _); reflexivity).
  now destruct (N l).
Qed.

Lemma task_started_without_plan_witness :
  type_is (VObj [("type", VStr "TASK_STARTED")]) "TASK_STARTED"
  /\ steps (onmessage (VObj [("type", VStr "TASK_STARTED")]) two_step_state)
     = steps two_step_state
  /\ taskState (onmessage (VObj [("type", VStr "TASK_STARTED")])
                  two_step_state) = "running".
Proof.
  split; [reflexivity|].
  rewrite (task_started_without_plan (VObj [("type", VStr "TASK_STARTED")])
             two_step_state eq_refl); [split; reflexivity|].
  intros plan. discriminate.
Defined.

(** ** Launching *)

Lemma handleSubmit_cases st :
  handleSubmit st = st
  \/ (taskState (handleSubmit st) = "running"
      /\ trim (goal st) <> ""
      /\ exists ws, wsRef st = Some ws /\ is_open (ready ws) = true
           /\ handleSubmit st
              = send (START_TASK (goal st)) ws (setTaskState "running" st)).
Proof.
  unfold handleSubmit.
  destruct (String.eqb_spec (trim (goal st)) ""); [now left|].
  destruct (wsRef st) as [ws|] eqn:W; [|now left].
  destruct (is_open (ready ws)) eqn:O; [|now left].
  right. split; [reflexivity|]. split; [assumption|]. eauto.
Qed.

(** X14. Clicking Launch twice in a row does what clicking it once does:
    an accepted click disables the button, so the second click sends no
    second [START_TASK]; a refused click changes nothing, and so does the
    next. *)
Theorem launch_twice_is_once (st : state) :
  react ClickLaunch (react ClickLaunch st) = react ClickLaunch st.
Proof.
  simpl. destruct (String.eqb (taskState st) "running") eqn:R.
  - now rewrite R.
  - destruct (handleSubmit_cases st) as [E|(T & _)].
    + rewrite E, R. exact E.
    + now rewrite T.
Qed.

(** X15. Once the stored task state is running it stays running through
    every event except a [TASK_COMPLETED] message: a failed step, a closed
    socket or a socket error does not end the run on the observer's side;
    and a Launch click handled in that state changes nothing. *)
Theorem running_until_completed (st : state) (e : event) :
  taskState st = "running" ->
  (forall m, e = Message m -> ~ type_is m "TASK_COMPLETED") ->
  taskState (react e st) = "running"
  /\ react ClickLaunch (react e st) = react e st.
Proof.
  intros R N.
  assert (T : taskState (react e st) = "running").
  { destruct (taskState_react e st) as [->|[[-> _]|[_ (m & -> & C)]]];
      [exact R|reflexivity|]. now destruct (N m eq_refl). }
  simpl. rewrite T. repeat split.
Qed.

Lemma running_until_completed_witness :
  taskState failed_run = "running"
  /\ taskState (react SocketClose failed_run) = "running"
  /\ taskState (react (Message (STEP_FAILED 2 7 "boom")) failed_run) = "running".
Proof.
  split; [reflexivity|].
  destruct (running_until_completed failed_run SocketClose eq_refl)
    as (H1 & _); [discriminate|].
  destruct (running_until_completed failed_run
              (Message (STEP_FAILED 2 7 "boom")) eq_refl) as (H2 & _).
  { intros m [= <-]. discriminate. }
  exact (conj H1 H2).
Defined.

(** ** Credentials *)

Lemma handleCredentialsSubmit_cases st :
  handleCredentialsSubmit st = st
  \/ exists ws, wsRef st = Some ws /\ is_open (ready ws) = true
       /\ handleCredentialsSubmit st
          = setCredentialsData emptyCredentials
              (setCredentialsRequest VNull
                 (send (CREDENTIALS_PROVIDED (credentialsData st)) ws st)).
Proof.
  unfold handleCredentialsSubmit.
  destruct (wsRef st) as [ws|] eqn:W; [|now left].
  destruct (is_open (ready ws)) eqn:O; [|now left].
  right. eauto.
Qed.

(** X16. Clicking Continue twice in a row does what clicking it once does:
    a submission closes the modal, so a second click sends nothing; while
    the socket is not open the click changes nothing at all. *)
Theorem continue_twice_is_once (st : state) :
  react ClickContinue (react ClickContinue st) = react ClickContinue st.
Proof.
  simpl. destruct (modal_open st) eqn:M.
  - destruct (handleCredentialsSubmit_cases st) as [E|(ws & _ & _ & E)].
    + rewrite E, M. exact E.
    + rewrite E. reflexivity.
  - now rewrite M.
Qed.

Lemma credentialsRequest_onmessage m st :
  credentialsRequest (onmessage m st)
  = if is_str (get m "type") "CREDENTIALS_REQUIRED"
    then or_else (get m "fields") (VObj [])
    else credentialsRequest st.
Proof.
  unfold onmessage.
  destruct m; try reflexivity.
  destruct (prop "type" o) as [| | | |t| | |] eqn:T; simpl; rewrite T; simpl;
    try reflexivity.
  message_kinds t; try discriminate; simpl; try reflexivity;
    settle_branches; reflexivity.
Qed.

Lemma truthy_or_else_object v : truthy (or_else v (VObj [])) = true.
Proof. unfold or_else. destruct (truthy v) eqn:E; [exact E|reflexivity]. Qed.

(** X17. A [CREDENTIALS_REQUIRED] message always opens the modal, also when
    it names no field (then only the Continue button is shown); the input
    for user name, email or password is shown exactly when the message's
    [fields] has a truthy entry of that name. *)
Theorem credentials_required_opens_modal (m : value) (st : state) :
  type_is m "CREDENTIALS_REQUIRED" ->
  modal_open (onmessage m st) = true
  /\ forall k, field_shown k (onmessage m st)
               = truthy (get (get m "fields") k).
Proof.
  unfold type_is. intros T. unfold field_shown, modal_open.
  rewrite credentialsRequest_onmessage, T, truthy_or_else_object.
  split; [reflexivity|]. intros k. simpl. unfold or_else.
  destruct (get m "fields") as [| |[|]|[| |]|[|]| | |x]; try reflexivity.
  destruct (truthy (VDouble x)); reflexivity.
Qed.

Lemma credentials_required_opens_modal_witness :
  type_is (VObj [("type", VStr "CREDENTIALS_REQUIRED")]) "CREDENTIALS_REQUIRED"
  /\ modal_open (onmessage (VObj [("type", VStr "CREDENTIALS_REQUIRED")])
                   initial) = true
  /\ field_shown "password"
       (onmessage (VObj [("type", VStr "CREDENTIALS_REQUIRED")]) initial)
     = false.
Proof.
  split; [reflexivity|].
  destruct (credentials_required_opens_modal
              (VObj [("type", VStr "CREDENTIALS_REQUIRED")]) initial eq_refl)
    as [H1 H2].
  split; [exact H1|]. rewrite H2. reflexivity.
Defined.

Lemma secrets_cleared_react e st :
  secrets_cleared st -> secrets_cleared (react e st).
Proof.
  unfold secrets_cleared, modal_open. intros IH.
  destruct e; simpl; try exact IH.
  - unfold set_ready. destruct (wsRef st); exact IH.
  - unfold set_ready. destruct (wsRef st); exact IH.
  - rewrite credentialsRequest_onmessage.
    rewrite (proj1 (proj2 (onmessage_frame m st))).
    destruct (is_str _ _); [|exact IH].
    rewrite truthy_or_else_object. discriminate.
  - destruct (String.eqb _ _); [exact IH|].
    destruct (handleSubmit_cases st) as [->|(_ & _ & ws & _ & _ & ->)];
      exact IH.
  - unfold field_shown, modal_open.
    destruct (truthy (credentialsRequest st) && truthy _) eqn:F; simpl;
      [|exact IH].
    apply andb_true_iff in F as [M _]. rewrite M. discriminate.
  - unfold field_shown, modal_open.
    destruct (truthy (credentialsRequest st) && truthy _) eqn:F; simpl;
      [|exact IH].
    apply andb_true_iff in F as [M _]. rewrite M. discriminate.
  - unfold field_shown, modal_open.
    destruct (truthy (credentialsRequest st) && truthy _) eqn:F; simpl;
      [|exact IH].
    apply andb_true_iff in F as [M _]. rewrite M. discriminate.
  - unfold modal_open. destruct (truthy (credentialsRequest st)) eqn:M.
    + destruct (handleCredentialsSubmit_cases st) as [->|(ws & _ & _ & ->)].
      * rewrite M. discriminate.
      * reflexivity.
    + intros _. exact (IH eq_refl).
Qed.

(** X18. The observer holds typed credentials only while the credentials
    modal is open: in every reachable state in which the modal is closed,
    user name, email and password are all the empty string. *)
Theorem secrets_only_while_asked (st : state) :
  reachable st ->
  modal_open st = false ->
  username (credentialsData st) = ""
  /\ email (credentialsData st) = ""
  /\ password (credentialsData st) = "".
Proof.
  intros R M.
  assert (S : secrets_cleared st).
  { clear M. induction R as [|st e R IH _]; [intros _; reflexivity|].
    now apply secrets_cleared_react. }
  unfold secrets_cleared in S. rewrite (S M). repeat split.
Qed.

Lemma secrets_only_while_asked_witness :
  reachable (react ClickContinue asked_state)
  /\ password (credentialsData asked_state) = "b"
  /\ modal_open (react ClickContinue asked_state) = false
  /\ password (credentialsData (react ClickContinue asked_state)) = "".
Proof.
  assert (R : reachable (react ClickContinue asked_state)).
  { apply reach_react; [apply reachable_run|exact I]. }
  split; [exact R|]. split; [reflexivity|]. split; [reflexivity|].
  apply (secrets_only_while_asked _ R eq_refl).
Defined.

(** ** What is sent *)

Lemma outbox_set_ready r st : outbox (set_ready r st) = outbox st.
Proof.
  unfold set_ready, outbox.
  destruct (wsRef st) as [ws|] eqn:W; simpl; now rewrite ?W.
Qed.

Lemma outbox_send v ws st :
  wsRef st = Some ws -> outbox (send v ws st) = (outbox st ++ [v])%list.
Proof. unfold outbox. intros ->. reflexivity. Qed.

Lemma sendable_react e st :
  Forall sendable (outbox st) -> Forall sendable (outbox (react e st)).
Proof.
  intros IH.
  destruct e; simpl; try exact IH.
  - constructor.
  - change (Forall sendable (outbox (set_ready OPEN st))).
    now rewrite outbox_set_ready.
  - change (Forall sendable (outbox (set_ready CLOSED st))).
    now rewrite outbox_set_ready.
  - unfold outbox.
    now rewrite (proj2 (proj2 (proj2 (onmessage_frame m st)))).
  - destruct (String.eqb _ _); [exact IH|].
    destruct (handleSubmit_cases st) as [->|(_ & G & ws & W & _ & ->)];
      [exact IH|].
    rewrite outbox_send by exact W. apply Forall_app. split; [exact IH|].
    constructor; [|constructor]. left. eauto.
  - destruct (field_shown _ _); exact IH.
  - destruct (field_shown _ _); exact IH.
  - destruct (field_shown _ _); exact IH.
  - destruct (modal_open _); [|exact IH].
    destruct (handleCredentialsSubmit_cases st) as [->|(ws & W & _ & ->)];
      [exact IH|].
    change (Forall sendable
              (outbox (send (CREDENTIALS_PROVIDED (credentialsData st)) ws st))).
    rewrite outbox_send by exact W. apply Forall_app. split; [exact IH|].
    constructor; [|constructor]. right. eauto.
Qed.

(** X19. Everything the observer ever sends is either the object
    [{type: "START_TASK", goal}] with a goal that is not blank after
    trimming, or the object [{type: "CREDENTIALS_PROVIDED", data}] whose
    data holds a user name, an email and a password: after any sequence of
    events from the initial state, the messages passed to the socket have
    one of these two shapes. *)
Theorem only_commands_sent (es : list event) :
  Forall sendable (outbox (run es initial)).
Proof.
  assert (G : forall st, Forall sendable (outbox st) ->
                         Forall sendable (outbox (run es st))).
  { induction es as [|e es IH]; intros st H; simpl; [exact H|].
    apply IH. now apply sendable_react. }
  apply G. constructor.
Qed.

(** ** Price results *)

Lemma priceResults_onmessage m st :
  priceResults (onmessage m st)
  = if is_str (get m "type") "PRICE_RESULTS" then m else priceResults st.
Proof.
  unfold onmessage.
  destruct m; try reflexivity.
  destruct (prop "type" o) as [| | | |t| | |] eqn:T; simpl; rewrite T; simpl;
    try reflexivity.
  message_kinds t; try discriminate; simpl; try reflexivity;
    settle_branches; reflexivity.
Qed.

Lemma priceResults_react e st :
  (forall m, e <> Message m) -> priceResults (react e st) = priceResults st.
Proof.
  intros H. destruct e; simpl; try reflexivity.
  - unfold set_ready. destruct (wsRef st); reflexivity.
  - unfold set_ready. destruct (wsRef st); reflexivity.
  - now destruct (H m).
  - destruct (String.eqb _ _); [reflexivity|].
    destruct (handleSubmit_cases st) as [->|(_ & _ & ws & _ & _ & ->)];
      reflexivity.
  - destruct (field_shown _ _); reflexivity.
  - destruct (field_shown _ _); reflexivity.
  - destruct (field_shown _ _); reflexivity.
  - destruct (modal_open _); [|reflexivity].
    destruct (handleCredentialsSubmit_cases st) as [->|(ws & _ & _ & ->)];
      reflexivity.
Qed.

(** X20. A [PRICE_RESULTS] message is stored whole in [priceResults],
    and what is stored is truthy, the condition under which [App] mounts
    the price panel.  Once the cell is truthy no event makes it falsy
    again, not even the start of the next task: the stored results are only
    ever replaced by a later [PRICE_RESULTS] message. *)
Theorem price_results_persist (st : state) (e : event) :
  (forall m, type_is m "PRICE_RESULTS" ->
             priceResults (onmessage m st) = m /\ truthy m = true)
  /\ (truthy (priceResults st) = true ->
      truthy (priceResults (react e st)) = true
      /\ (priceResults (react e st) = priceResults st
          \/ exists m, e = Message m /\ type_is m "PRICE_RESULTS"
                       /\ priceResults (react e st) = m)).
Proof.
  assert (P : forall m, type_is m "PRICE_RESULTS" ->
                        priceResults (onmessage m st) = m /\ truthy m = true).
  { unfold type_is. intros m T. rewrite priceResults_onmessage, T.
    split; [reflexivity|]. destruct m; try discriminate T. reflexivity. }
  split; [exact P|]. intros H.
  destruct (match e with Message m => Some m | _ => None end) as [m|] eqn:M.
  - destruct e; try discriminate M. injection M as ->. simpl.
    destruct (is_str (get m "type") "PRICE_RESULTS") eqn:T.
    + destruct (P m T) as [E Tm]. rewrite E. split; [exact Tm|].
      right. exists m. auto.
    + rewrite priceResults_onmessage, T. auto.
  - rewrite priceResults_react; [auto|]. intros m ->. discriminate M.
Qed.

Lemma price_results_persist_witness :
  truthy (priceResults
            (onmessage (VObj [("type", VStr "PRICE_RESULTS")]) initial)) = true
  /\ truthy (priceResults
               (react (Message (TASK_STARTED demo_plan))
                  (onmessage (VObj [("type", VStr "PRICE_RESULTS")])
                     initial))) = true.
Proof.
  split; [reflexivity|].
  apply (price_results_persist
           (onmessage (VObj [("type", VStr "PRICE_RESULTS")]) initial)
           (Message (TASK_STARTED demo_plan))).
  reflexivity.
Defined.

(** ** Descriptions are never empty *)

Lemma ToString_coalesce v n :
  ToString v <> None -> ToString (coalesce v (VNum n)) <> None.
Proof. unfold coalesce. destruct (nullish v); [discriminate|trivial]. Qed.

Lemma interpolate_nonempty v k :
  ToString v <> None -> (forall t, k t <> "") ->
  exists d, interpolate v k = Some (VStr d) /\ d <> "".
Proof.
  unfold interpolate. intros P K.
  destruct (ToString v) as [t|]; [eauto|now destruct P].
Qed.

(** X21. For a step whose action is a non-empty string and whose
    parameters all have a text (none of them is an object whose own
    [toString] makes the template literal throw), [buildDescription]
    returns a non-empty string, whether or not the action belongs to the
    vocabulary (a missing parameter prints as "undefined", an unknown
    action as its own name). *)
Theorem description_nonempty (step : value) (a : string) :
  get step "action" = VStr a ->
  a <> "" ->
  (forall k, In k ["url"; "selector"; "text"; "amount"; "ms"] ->
             ToString (get step k) <> None) ->
  exists d, buildDescription step = Some (VStr d) /\ d <> "".
Proof.
  intros A Ha P. destruct step; try discriminate A.
  change (get (VObj o) "action") with (prop "action" o) in A.
  assert (Q : forall k, In k ["url"; "selector"; "text"; "amount"; "ms"] ->
                        ToString (prop k o) <> None) by exact P.
  rewrite buildDescription_object, A. cbv zeta.
  destruct (is_str (VStr a) "navigate").
  { apply interpolate_nonempty; [apply Q; simpl; auto|discriminate]. }
  destruct (is_str (VStr a) "click").
  { apply interpolate_nonempty; [apply Q; simpl; auto|discriminate]. }
  destruct (is_str (VStr a) "type").
  { destruct (ToString (prop "text" o)) as [t|] eqn:T;
      [|destruct (Q "text"); simpl; auto].
    destruct (ToString (prop "selector" o)) as [sel|] eqn:S;
      [|destruct (Q "selector"); simpl; auto].
    eexists. split; [reflexivity|discriminate]. }
  destruct (is_str (VStr a) "scroll").
  { apply interpolate_nonempty;
      [apply ToString_coalesce, Q; simpl; auto|discriminate]. }
  destruct (is_str (VStr a) "wait").
  { apply interpolate_nonempty;
      [apply ToString_coalesce, Q; simpl; auto 6|discriminate]. }
  destruct (is_str (VStr a) "screenshot"); [|eauto].
  eexists. split; [reflexivity|discriminate].
Qed.

Lemma description_nonempty_witness :
  get (VObj [("action", VStr "hover")]) "action" = VStr "hover"
  /\ buildDescription (VObj [("action", VStr "hover")]) = Some (VStr "hover")
  /\ buildDescription (VObj [("action", VStr "scroll"); ("amount", VNum 250)])
     = Some (VStr "Scroll 250px")
  /\ (exists d,
        buildDescription (VObj [("action", VStr "type"); ("text", VNum 7)])
        = Some (VStr d) /\ d <> "").
Proof.
  split; [reflexivity|]. split; [reflexivity|]. split; [vm_compute; reflexivity|].
  apply (description_nonempty
           (VObj [("action", VStr "type"); ("text", VNum 7)]) "type" eq_refl).
  - discriminate.
  - intros k [<-|[<-|[<-|[<-|[<-|[]]]]]]; vm_compute; discriminate.
Defined.

(** ** The ends of the progress bar *)

Lemma round_percent_bounds c n :
  (0 < n)%nat -> (c <= n)%nat -> (n < 200)%nat ->
  0 <= round_percent c n <= 100
  /\ (round_percent c n = 100 <-> c = n)
  /\ (round_percent c n = 0 <-> c = 0%nat).
Proof.
  intros Hn Hc Hb. unfold round_percent.
  set (x := Z.of_nat c). set (y := Z.of_nat n).
  assert (Hx : 0 <= x <= y) by lia. assert (Hy : 0 < y < 200) by lia.
  assert (Ec : c = n <-> x = y) by lia.
  assert (E0 : c = 0%nat <-> x = 0) by lia.
  rewrite Ec, E0. clearbody x y. clear Ec E0 Hn Hc Hb c n.
  pose proof (Z.div_mod (200 * x + y) (2 * y) ltac:(lia)) as D.
  pose proof (Z.mod_pos_bound (200 * x + y) (2 * y) ltac:(lia)) as M.
  set (q := (200 * x + y) / (2 * y)) in *.
  set (r := (200 * x + y) mod (2 * y)) in *.
  clearbody q r. repeat split; try nia.
Qed.

(** X22. For a plan of fewer than 40 steps the progress shown lies between
    0 and 100, is 100 exactly when every step is completed, and is 0
    exactly when no step is. *)
Theorem progress_ends (l : list object) :
  (0 < length l < 40)%nat ->
  0 <= progress l <= 100
  /\ (progress l = 100 <-> completed l = length l)
  /\ (progress l = 0 <-> completed l = 0%nat).
Proof.
  intros H. rewrite progress_exact_below_40 by lia.
  unfold exact_progress.
  destruct (Nat.eqb_spec (length l) 0); [lia|].
  apply round_percent_bounds; [lia|apply completed_le_length|lia].
Qed.

Lemma progress_ends_witness :
  (0 < length (steps one_done_state) < 40)%nat
  /\ completed (steps one_done_state) = length (steps one_done_state)
  /\ progress (steps one_done_state) = 100.
Proof.
  assert (H : (0 < length (steps one_done_state) < 40)%nat)
    by (simpl; lia).
  split; [exact H|]. split; [reflexivity|].
  apply (progress_ends (steps one_done_state) H). reflexivity.
Defined.

(** ** The connection indicator *)

Lemma connection_react e st :
  connection (react e st) = connection st
  \/ (e = SocketOpen /\ connection (react e st) = "connected")
  \/ (e = SocketClose /\ connection (react e st) = "disconnected")
  \/ (e = SocketError /\ connection (react e st) = "error").
Proof.
  destruct e; simpl; auto.
  - left. apply onmessage_frame.
  - left. destruct (String.eqb _ _); [reflexivity|].
    destruct (handleSubmit_cases st) as [->|(_ & _ & ws & _ & _ & ->)];
      reflexivity.
  - left. destruct (field_shown _ _); reflexivity.
  - left. destruct (field_shown _ _); reflexivity.
  - left. destruct (field_shown _ _); reflexivity.
  - left. destruct (modal_open _); [|reflexivity].
    destruct (handleCredentialsSubmit_cases st) as [->|(ws & _ & _ & ->)];
      reflexivity.
Qed.

Lemma socket_open_set_ready r st :
  socket_open (set_ready r st) = true -> is_open r = true.
Proof.
  unfold set_ready, socket_open.
  destruct (wsRef st) as [ws|] eqn:W; simpl; [trivial|].
  rewrite W. discriminate.
Qed.

Lemma socket_open_send v ws st :
  wsRef st = Some ws -> socket_open (send v ws st) = socket_open st.
Proof. unfold socket_open. intros ->. reflexivity. Qed.

Lemma indicator_sound_react e st :
  indicator_sound st -> indicator_sound (react e st).
Proof.
  unfold indicator_sound. intros IH.
  destruct e; simpl; try exact IH; try discriminate.
  - intros H%socket_open_set_ready. discriminate.
  - unfold socket_open.
    rewrite (proj2 (proj2 (proj2 (onmessage_frame m st)))).
    now rewrite (proj1 (proj2 (proj2 (onmessage_frame m st)))).
  - destruct (String.eqb _ _); [exact IH|].
    destruct (handleSubmit_cases st) as [->|(_ & _ & ws & W & _ & ->)];
      [exact IH|].
    rewrite socket_open_send by exact W. exact IH.
  - destruct (field_shown _ _); exact IH.
  - destruct (field_shown _ _); exact IH.
  - destruct (field_shown _ _); exact IH.
  - destruct (modal_open _); [|exact IH].
    destruct (handleCredentialsSubmit_cases st) as [->|(ws & W & _ & ->)];
      [exact IH|].
    change (socket_open
              (send (CREDENTIALS_PROVIDED (credentialsData st)) ws st) = true ->
            connection st <> "disconnected").
    rewrite socket_open_send by exact W. exact IH.
Qed.

Lemma indicator_sound_reachable st : reachable st -> indicator_sound st.
Proof.
  induction 1 as [|st e R IH _]; [discriminate|].
  now apply indicator_sound_react.
Qed.

(** X23. While the connection indicator reads "disconnected" the socket is
    not open, so the observer sends nothing: a Launch click and a Continue
    click both leave the whole state as it was, the typed goal and the
    typed credentials included. *)
Theorem disconnected_clicks_ignored (st : state) :
  reachable st ->
  connection st = "disconnected" ->
  socket_open st = false
  /\ react ClickLaunch st = st
  /\ react ClickContinue st = st.
Proof.
  intros R%indicator_sound_reachable C.
  assert (O : socket_open st = false).
  { destruct (socket_open st) eqn:O; [|reflexivity]. now destruct (R O). }
  split; [exact O|]. unfold socket_open in O. simpl. split.
  - destruct (String.eqb _ _); [reflexivity|].
    destruct (handleSubmit_cases st) as [E|(_ & _ & ws & W & Op & _)];
      [exact E|]. rewrite W, Op in O. discriminate.
  - destruct (modal_open _); [|reflexivity].
    destruct (handleCredentialsSubmit_cases st) as [E|(ws & W & Op & _)];
      [exact E|]. rewrite W, Op in O. discriminate.
Qed.

Lemma disconnected_clicks_ignored_witness :
  reachable (run [SocketClose] ready_state)
  /\ connection (run [SocketClose] ready_state) = "disconnected"
  /\ react ClickLaunch (run [SocketClose] ready_state)
     = run [SocketClose] ready_state.
Proof.
  assert (R : reachable (run [SocketClose] ready_state))
    by apply reachable_run_from, reachable_run.
  split; [exact R|]. split; [reflexivity|].
  apply (disconnected_clicks_ignored _ R eq_refl).
Defined.

(** X24. In every reachable state the connection indicator reads
    connected, disconnected or error, so the colour [StatusBar] looks up
    for it is always one of its own three entries and never the grey
    fallback. *)
Theorem connection_colour_defined (st : state) :
  reachable st ->
  In (connection st) connection_states
  /\ exists c, own connectionColor (connection st) = Some c
       /\ connectionClass (connection st) = Own c.
Proof.
  intros R.
  assert (H : In (connection st) connection_states).
  { induction R as [|st e R IH _]; [simpl; auto|].
    destruct (connection_react e st) as [->|[[_ ->]|[[_ ->]|[_ ->]]]];
      simpl; auto. }
  split; [exact H|]. simpl in H.
  destruct H as [<-|[<-|[<-|[]]]]; eexists; split; reflexivity.
Qed.

Lemma connection_colour_defined_witness :
  reachable ready_state
  /\ connectionClass (connection ready_state) = Own "text-ok".
Proof.
  split; [apply reachable_run|].
  destruct (connection_colour_defined ready_state (reachable_run _))
    as (_ & c & Hc & H).
  injection Hc as <-. exact H.
Defined.

(** ** Time line keys *)

Lemma append_empty s : "" +:+ s = s.
Proof. reflexivity. Qed.

Lemma append_String x a s : String x a +:+ s = String x (a +:+ s).
Proof. reflexivity. Qed.

Lemma occurs_append c a d : occurs c (a +:+ String c d) = true.
Proof.
  induction a as [|x a IH].
  - rewrite append_empty. simpl. now rewrite Ascii.eqb_refl.
  - rewrite append_String. simpl. rewrite IH. apply orb_true_r.
Qed.

Lemma append_sep_inj c a a' d d' :
  occurs c d = false -> occurs c d' = false ->
  a +:+ String c d = a' +:+ String c d' -> d = d'.
Proof.
  intros Hd Hd'. revert a'.
  induction a as [|x a IH]; intros [|y a'];
    rewrite ?append_empty, ?append_String; intros E.
  - congruence.
  - injection E as -> ->. now rewrite occurs_append in Hd.
  - injection E as -> <-. now rewrite occurs_append in Hd'.
  - injection E as _ E. eauto.
Qed.

Lemma digits_no_dash d : occurs "-" (NilEmpty.string_of_uint d) = false.
Proof. induction d; simpl; auto. Qed.

Lemma decimal_no_dash d : occurs "-" (NilZero.string_of_uint d) = false.
Proof. destruct d; try reflexivity; exact (digits_no_dash _). Qed.

Lemma index_key_no_dash i : occurs "-" (index_key i) = false.
Proof.
  unfold index_key, decimal.
  destruct i as [|i]; [reflexivity|].
  change (Z.to_int (Z.of_nat (S i)))
    with (Decimal.Pos (Pos.to_uint (Pos.of_succ_nat i))).
  apply decimal_no_dash.
Qed.

Lemma decimal_inj a b : decimal a = decimal b -> a = b.
Proof.
  unfold decimal. intros E.
  assert (N : forall z, Z.to_int z <> Decimal.Pos Decimal.Nil
                        /\ Z.to_int z <> Decimal.Neg Decimal.Nil).
  { intros z. split; intros H; pose proof (f_equal Z.of_int H) as H';
      rewrite DecimalZ.of_to in H'; simpl in H'; subst z; discriminate H. }
  apply (f_equal NilZero.int_of_string) in E.
  rewrite !NilZero.isi in E by apply N.
  injection E as E. apply (f_equal Z.of_int) in E.
  now rewrite !DecimalZ.of_to in E.
Qed.

Lemma index_key_inj i j : index_key i = index_key j -> i = j.
Proof. unfold index_key. intros H%decimal_inj. lia. Qed.

(** X25. The keys [Timeline] computes for its items, the step's action
    and its position joined by a dash, are pairwise distinct: two positions
    whose keys are both computed and are the same string are the same
    position, also when actions repeat or contain a dash.  (A key is not
    computed when the action has no text and the template literal
    throws.) *)
Theorem timeline_keys_distinct (s t : object) (i j : nat) (k : string) :
  timelineKey s i = Some k ->
  timelineKey t j = Some k ->
  i = j.
Proof.
  unfold timelineKey. intros Hi Hj.
  destruct (ToString (prop "action" s)) as [a|]; [|discriminate].
  destruct (ToString (prop "action" t)) as [a'|]; [|discriminate].
  injection Hi as Hi. injection Hj as Hj.
  apply index_key_inj.
  apply (append_sep_inj "-" a a');
    [apply index_key_no_dash|apply index_key_no_dash|].
  exact (eq_trans Hi (eq_sym Hj)).
Qed.

Lemma timeline_keys_distinct_witness :
  timelineKey [("action", VStr "click-1")] 0 = Some "click-1-0"
  /\ timelineKey [("action", VStr "click")] 1 = Some "click-1"
  /\ timelineKey [("action", VStr "click")] 2 = Some "click-2"
  /\ timelineKey [("action", unprintable)] 3 = None
  /\ 2%nat = 2%nat.
Proof.
  split; [reflexivity|]. split; [reflexivity|]. split; [reflexivity|].
  split; [reflexivity|].
  apply (timeline_keys_distinct
           [("action", VStr "click")] [("action", VStr "click")] 2 2
           "click-2"); reflexivity.
Defined.

(** ** Whole runs *)

Lemma run_app a b st : run (a ++ b) st = run b (run a st).
Proof. unfold run. apply fold_left_app. Qed.

Lemma steps_ok_S d k : steps_ok d (S k) = (steps_ok d k ++ step_ok d k)%list.
Proof.
  unfold steps_ok. rewrite seq_S, flat_map_app. reflexivity.
Qed.

Lemma is_index_of_nat j k :
  is_index j (VNum (Z.of_nat k)) = Nat.eqb k j.
Proof.
  simpl. destruct (Nat.eqb_spec k j); [apply Z.eqb_eq|apply Z.eqb_neq]; lia.
Qed.

Lemma at_point_started d k l :
  at_point d k l ->
  forall j s, l !! j = Some s ->
    status (started (VNum (Z.of_nat k)) j s)
    = (if Nat.eqb k j then VStr "active" else status s)
    /\ duration_ms (started (VNum (Z.of_nat k)) j s) = duration_ms s.
Proof.
  intros P j s Hj. rewrite status_started, duration_started, is_index_of_nat.
  split; [|reflexivity]. destruct (Nat.eqb k j); [reflexivity|].
  specialize (P j s Hj). destruct (j <? k)%nat; destruct P as [-> _];
    reflexivity.
Qed.

Lemma at_point_step_ok d k st :
  at_point d k (steps st) ->
  at_point d (S k) (steps (run (step_ok d k) st))
  /\ activeIndex (run (step_ok d k) st) = VNull
  /\ taskState (run (step_ok d k) st) = taskState st
  /\ length (steps (run (step_ok d k) st)) = length (steps st).
Proof.
  intros P.
  set (m1 := STEP_STARTED (Z.of_nat k)).
  set (m2 := STEP_COMPLETED (Z.of_nat k) (d k)).
  change (run (step_ok d k) st) with (onmessage m2 (onmessage m1 st)).
  rewrite activeIndex_onmessage, taskState_onmessage, taskState_onmessage.
  rewrite !steps_onmessage.
  rewrite (next_steps_completed m2) by reflexivity.
  rewrite (next_steps_started m1) by reflexivity.
  rewrite !length_imap. repeat split.
  intros j s Hj.
  apply list_lookup_imap_Some in Hj as (s1 & Hj & ->).
  apply list_lookup_imap_Some in Hj as (s0 & Hj & ->).
  destruct (at_point_started d k _ P j s0 Hj) as [Hs Hd].
  change (get m1 "index") with (VNum (Z.of_nat k)).
  rewrite status_finished, duration_finished.
  change (get m2 "index") with (VNum (Z.of_nat k)).
  change (get m2 "duration_ms") with (VNum (d k)).
  rewrite is_index_of_nat, Hs, Hd. specialize (P j s0 Hj).
  destruct (Nat.eqb_spec k j) as [->|Hne].
  - rewrite (proj2 (Nat.ltb_lt j (S j))) by lia. auto.
  - destruct (Nat.ltb_spec j k).
    + rewrite (proj2 (Nat.ltb_lt j (S k))) by lia. exact P.
    + rewrite (proj2 (Nat.ltb_ge j (S k))) by lia. exact P.
Qed.

Lemma at_point_steps_ok d k st :
  at_point d 0 (steps st) ->
  activeIndex st = VNull ->
  at_point d k (steps (run (steps_ok d k) st))
  /\ activeIndex (run (steps_ok d k) st) = VNull
  /\ taskState (run (steps_ok d k) st) = taskState st
  /\ length (steps (run (steps_ok d k) st)) = length (steps st).
Proof.
  intros P A. induction k as [|k (IH1 & IH2 & IH3 & IH4)].
  - simpl. auto.
  - rewrite steps_ok_S, run_app.
    destruct (at_point_step_ok d k _ IH1) as (H1 & H2 & H3 & H4).
    rewrite H3, H4. auto.
Qed.

Lemma at_point_plan d plan st :
  describable plan ->
  at_point d 0 (steps (onmessage (TASK_STARTED plan) st))
  /\ length (steps (onmessage (TASK_STARTED plan) st)) = length plan
  /\ activeIndex (onmessage (TASK_STARTED plan) st) = VNull
  /\ taskState (onmessage (TASK_STARTED plan) st) = "running".
Proof.
  intros D.
  rewrite (onmessage_plan (TASK_STARTED plan) plan st eq_refl eq_refl).
  destruct (plan_cases plan) as [(_ & l & -> & F)|(N & _)];
    [|now destruct N].
  simpl. split; [|split; [symmetry; eapply Forall2_length, F|auto]].
  intros j s Hj.
  destruct (Forall2_lookup_r _ _ _ _ _ F Hj) as (x & _ & Hx).
  now rewrite (enrich_status _ _ Hx), (enrich_duration _ _ Hx).
Qed.

Lemma completed_all l :
  (forall j s, l !! j = Some s -> is_completed s = true) ->
  completed l = length l.
Proof.
  unfold completed. induction l as [|s r IH]; intros H; [reflexivity|].
  simpl. rewrite (H 0%nat s eq_refl). simpl. f_equal.
  apply IH. intros j t Hj. apply (H (S j) t Hj).
Qed.

(** X26. A run that succeeds ends in the expected stored state, for every
    plan whose steps [buildDescription] can describe and whatever was
    stored before: after [TASK_STARTED] with the plan, a [STEP_STARTED] and
    a [STEP_COMPLETED] for each step in order and a final [TASK_COMPLETED],
    the task state is completed, every step of the plan is completed with
    the duration reported for it, no step is active, the active index is
    null, and (for plans of 1 to 39 steps) the progress is 100. *)
Theorem successful_run_view (plan : list value) (d : nat -> Z) (st : state) :
  describable plan ->
  taskState (run (successful_run plan d) st) = "completed"
  /\ activeIndex (run (successful_run plan d) st) = VNull
  /\ length (steps (run (successful_run plan d) st)) = length plan
  /\ (forall j s, steps (run (successful_run plan d) st) !! j = Some s ->
        status s = VStr "completed" /\ duration_ms s = VNum (d j))
  /\ completed (steps (run (successful_run plan d) st)) = length plan
  /\ active_count (steps (run (successful_run plan d) st)) = 0%nat
  /\ ((0 < length plan < 40)%nat ->
      progress (steps (run (successful_run plan d) st)) = 100).
Proof.
  intros D. unfold successful_run.
  change (run (Message (TASK_STARTED plan) :: ?r) st)
    with (run r (onmessage (TASK_STARTED plan) st)).
  destruct (at_point_plan d plan st D) as (P0 & L0 & A0 & _).
  set (st0 := onmessage (TASK_STARTED plan) st) in *.
  destruct (at_point_steps_ok d (length plan) st0 P0 A0) as (P & A & _ & L).
  rewrite run_app. set (st1 := run (steps_ok d (length plan)) st0) in *.
  change (run [Message TASK_COMPLETED] st1)
    with (onmessage TASK_COMPLETED st1).
  rewrite taskState_onmessage, activeIndex_onmessage, steps_onmessage.
  change (next_steps TASK_COMPLETED (steps st1)) with (steps st1).
  assert (S : forall j s, steps st1 !! j = Some s ->
                status s = VStr "completed" /\ duration_ms s = VNum (d j)).
  { intros j s Hj. specialize (P j s Hj).
    rewrite (proj2 (Nat.ltb_lt j (length plan))) in P; [exact P|].
    rewrite <- L0, <- L. eapply lookup_lt_Some, Hj. }
  assert (C : completed (steps st1) = length plan).
  { rewrite completed_all; [congruence|]. intros j s Hj.
    unfold is_completed. fold (status s). now rewrite (proj1 (S j s Hj)). }
  split; [reflexivity|]. split; [exact A|]. split; [congruence|].
  split; [exact S|]. split; [exact C|]. split.
  - apply active_count_zero. intros j s Hj. unfold is_active.
    now rewrite (proj1 (S j s Hj)).
  - intros H. rewrite progress_exact_below_40 by lia.
    unfold exact_progress. rewrite L, L0, C.
    destruct (Nat.eqb_spec (length plan) 0); [lia|].
    apply round_percent_bounds; lia.
Qed.

Lemma successful_run_view_witness :
  describable demo_plan
  /\ (0 < length demo_plan < 40)%nat
  /\ taskState (run (successful_run demo_plan (fun _ => 12)) failed_run)
     = "completed"
  /\ map status
       (steps (run (successful_run demo_plan (fun _ => 12)) failed_run))
     = [VStr "completed"; VStr "completed"; VStr "completed"]
  /\ progress (steps (run (successful_run demo_plan (fun _ => 12)) failed_run))
     = 100.
Proof.
  assert (D : describable demo_plan)
    by (repeat constructor; vm_compute; discriminate).
  assert (H : (0 < length demo_plan < 40)%nat) by (simpl; lia).
  split; [exact D|]. split; [exact H|].
  split; [vm_compute; reflexivity|]. split; [vm_compute; reflexivity|].
  apply (successful_run_view demo_plan (fun _ => 12) failed_run D). exact H.
Defined.

(** X27. A run that fails at step [k] of a plan whose steps
    [buildDescription] can describe leaves in the stored state the steps
    before [k] completed with their durations, step [k] failed with the
    reported duration and error, and the steps after it pending; the active
    index is null, and the task state is still running: the observer has no
    failed task state. *)
Theorem failing_run_view (plan : list value) (d : nat -> Z) (k : nat)
  (err : string) (st : state) :
  describable plan ->
  (k < length plan)%nat ->
  taskState (run (failing_run plan d k err) st) = "running"
  /\ activeIndex (run (failing_run plan d k err) st) = VNull
  /\ length (steps (run (failing_run plan d k err) st)) = length plan
  /\ forall j s, steps (run (failing_run plan d k err) st) !! j = Some s ->
       match Nat.compare j k with
       | Lt => status s = VStr "completed" /\ duration_ms s = VNum (d j)
       | Eq => status s = VStr "failed" /\ duration_ms s = VNum (d k)
               /\ prop "error" s = VStr err
       | Gt => status s = VStr "pending" /\ duration_ms s = VNull
       end.
Proof.
  intros D Hk. unfold failing_run.
  change (run (Message (TASK_STARTED plan) :: ?r) st)
    with (run r (onmessage (TASK_STARTED plan) st)).
  destruct (at_point_plan d plan st D) as (P0 & L0 & A0 & T0).
  set (st0 := onmessage (TASK_STARTED plan) st) in *.
  destruct (at_point_steps_ok d k st0 P0 A0) as (P & A & T & L).
  rewrite run_app. set (st1 := run (steps_ok d k) st0) in *.
  set (m1 := STEP_STARTED (Z.of_nat k)).
  set (m2 := STEP_FAILED (Z.of_nat k) (d k) err).
  change (run [Message m1; Message m2] st1)
    with (onmessage m2 (onmessage m1 st1)).
  rewrite taskState_onmessage, taskState_onmessage, activeIndex_onmessage.
  rewrite !steps_onmessage.
  rewrite (next_steps_failed m2) by reflexivity.
  rewrite (next_steps_started m1) by reflexivity.
  rewrite !length_imap.
  split; [simpl; congruence|]. split; [reflexivity|]. split; [congruence|].
  intros j s Hj.
  apply list_lookup_imap_Some in Hj as (s1 & Hj & ->).
  apply list_lookup_imap_Some in Hj as (s0 & Hj & ->).
  change (get m1 "index") with (VNum (Z.of_nat k)).
  destruct (at_point_started d k _ P j s0 Hj) as [Hs Hd].
  rewrite status_failed, duration_failed. unfold failed.
  change (get m2 "index") with (VNum (Z.of_nat k)).
  change (get m2 "duration_ms") with (VNum (d k)).
  change (get m2 "error") with (VStr err).
  rewrite is_index_of_nat, Hs, Hd. specialize (P j s0 Hj).
  destruct (Nat.eqb_spec k j) as [->|Hne].
  - rewrite Nat.compare_refl. rewrite prop_set_prop_eq. auto.
  - destruct (Nat.compare_spec j k) as [E|Hlt|Hgt]; [lia| |].
    + rewrite (proj2 (Nat.ltb_lt j k)) in P by lia. exact P.
    + rewrite (proj2 (Nat.ltb_ge j k)) in P by lia. exact P.
Qed.

Lemma failing_run_view_witness :
  describable demo_plan
  /\ (1 < length demo_plan)%nat
  /\ taskState (run (failing_run demo_plan (fun _ => 12) 1
                       "selector not found") initial) = "running"
  /\ map status (steps (run (failing_run demo_plan (fun _ => 12) 1
                              "selector not found") initial))
     = [VStr "completed"; VStr "failed"; VStr "pending"].
Proof.
  assert (D : describable demo_plan)
    by (repeat constructor; vm_compute; discriminate).
  assert (H : (1 < length demo_plan)%nat) by (simpl; lia).
  split; [exact D|]. split; [exact H|].
  split; [|vm_compute; reflexivity].
  apply (failing_run_view demo_plan (fun _ => 12) 1 "selector not found"
           initial D H).
Defined.

(** ** Frames *)

Lemma frame_onmessage m st :
  frame (onmessage m st)
  = (if is_str (get m "type") "BROWSER_FRAME" then get m "image"
     else frame st)
  /\ frameSource (onmessage m st)
     = (if is_str (get m "type") "BROWSER_FRAME"
        then or_else (get m "source") VNull
        else frameSource st).
Proof.
  unfold onmessage.
  destruct m; try (split; reflexivity).
  destruct (prop "type" o) as [| | | |t| | |] eqn:T; simpl; rewrite T; simpl;
    try (split; reflexivity).
  message_kinds t; try discriminate; simpl; try (split; reflexivity);
    settle_branches; split; reflexivity.
Qed.

Lemma frame_react e st :
  (forall m, e <> Message m) ->
  frame (react e st) = frame st /\ frameSource (react e st) = frameSource st.
Proof.
  intros H. destruct e; simpl; try (split; reflexivity).
  - unfold set_ready. destruct (wsRef st); split; reflexivity.
  - unfold set_ready. destruct (wsRef st); split; reflexivity.
  - now destruct (H m).
  - destruct (String.eqb _ _); [split; reflexivity|].
    destruct (handleSubmit_cases st) as [->|(_ & _ & ws & _ & _ & ->)];
      split; reflexivity.
  - destruct (field_shown _ _); split; reflexivity.
  - destruct (field_shown _ _); split; reflexivity.
  - destruct (field_shown _ _); split; reflexivity.
  - destruct (modal_open _); [|split; reflexivity].
    destruct (handleCredentialsSubmit_cases st) as [->|(ws & _ & _ & ->)];
      split; reflexivity.
Qed.

Lemma frame_step e st :
  (frame (react e st) = frame st /\ frameSource (react e st) = frameSource st)
  \/ exists m, e = Message m /\ type_is m "BROWSER_FRAME"
       /\ frame (react e st) = get m "image"
       /\ frameSource (react e st) = or_else (get m "source") VNull.
Proof.
  destruct (match e with Message m => Some m | _ => None end) as [m|] eqn:M.
  - destruct e; try discriminate M. injection M as ->. simpl.
    destruct (frame_onmessage m st) as [-> ->].
    destruct (is_str (get m "type") "BROWSER_FRAME") eqn:T; [|now left].
    right. exists m. auto.
  - left. apply frame_react. intros m ->. discriminate M.
Qed.

Lemma or_else_null v : or_else v VNull = VNull \/ truthy (or_else v VNull) = true.
Proof. unfold or_else. destruct (truthy v) eqn:E; auto. Qed.

(** X28. The frame on display changes only when a [BROWSER_FRAME] message
    arrives, which replaces it with the message's image as received; the
    frame of an earlier run stays up until then.  The source label is the
    message's source, or null when that is missing or empty, so in every
    reachable state it is either null or a value the browser view shows. *)
Theorem frame_replaced_by_frames_only (st : state) (e : event) :
  reachable st ->
  (frameSource st = VNull \/ truthy (frameSource st) = true)
  /\ ((frame (react e st) = frame st
       /\ frameSource (react e st) = frameSource st)
      \/ exists m, e = Message m /\ type_is m "BROWSER_FRAME"
           /\ frame (react e st) = get m "image"
           /\ frameSource (react e st) = or_else (get m "source") VNull).
Proof.
  intros R. split; [|apply frame_step].
  induction R as [|st e' R IH _]; [now left|].
  destruct (frame_step e' st) as [[_ ->]|(m & _ & _ & _ & ->)];
    [exact IH|apply or_else_null].
Qed.

Lemma frame_replaced_by_frames_only_witness :
  reachable running_state
  /\ frame (react (Message (TASK_STARTED demo_plan)) running_state)
     = frame running_state.
Proof.
  split; [apply reachable_run|].
  destruct (frame_replaced_by_frames_only running_state
              (Message (TASK_STARTED demo_plan)) (reachable_run _))
    as [_ [[H _]|(m & E & T & _)]]; [exact H|].
  injection E as <-. discriminate T.
Defined.
